(** * Projekt_3 / main.py: election-result scraper

    A shallow embedding of [main.py] (argument validation, the three
    table extractors, the CSV writer and the orchestrator) together with
    the properties of its specification.

    Python strings are lists of Unicode code points; the document tree
    built by BeautifulSoup is an inductive type; the network, standard
    output and the file system are threaded through a state-and-exception
    monad. *)

From Stdlib Require Import List NArith ZArith Bool Lia.
From stdpp Require Import base option countable strings gmap.
Import ListNotations.

Local Open Scope N_scope.
Local Open Scope nat_scope.

(** ** Python strings *)

(** A [str] is a sequence of code points. *)
Abbreviation text := (list N).

(** String literals of the source, written as Rocq strings (ASCII only). *)
Definition str (s : string) : text :=
  map Ascii.N_of_ascii (String.list_ascii_of_string s).
Arguments str : simpl never.

Definition text_eqb (a b : text) : bool := bool_decide (a = b).

(** [s.startswith(p)] *)
Fixpoint startswith (s p : text) {struct p} : bool :=
  match p, s with
  | [], _ => true
  | _ :: _, [] => false
  | c :: p', d :: s' => N.eqb c d && startswith s' p'
  end.

(** [s.endswith(p)] *)
Definition endswith (s p : text) : bool := startswith (rev s) (rev p).

(** [c.isspace()]: the code points Python treats as whitespace in
    [str.strip] and [str.split]. *)
Definition isspace (c : N) : bool :=
  ((9 <=? c) && (c <=? 13) || (28 <=? c) && (c <=? 32)
   || (c =? 133) || (c =? 160) || (c =? 5760)
   || (8192 <=? c) && (c <=? 8202)
   || (c =? 8232) || (c =? 8233) || (c =? 8239) || (c =? 8287)
   || (c =? 12288))%N.

Fixpoint lstrip (s : text) : text :=
  match s with
  | [] => []
  | c :: s' => if isspace c then lstrip s' else s
  end.

Definition rstrip (s : text) : text := rev (lstrip (rev s)).

(** [s.strip()] *)
Definition strip (s : text) : text := rstrip (lstrip s).

(** [s.replace(c, '')] for a one-character [c]. *)
Definition remove_char (c : N) (s : text) : text :=
  List.filter (fun d => negb (N.eqb d c)) s.

(** The no-break space ['\xa0']. *)
Definition nbsp : N := 160%N.

(** [s.split()]: maximal runs of non-whitespace characters.  [cur] is the
    run being read. *)
Fixpoint split_aux (cur : text) (s : text) : list text :=
  match s with
  | [] => match cur with [] => [] | _ => [cur] end
  | c :: s' =>
      if isspace c
      then match cur with [] => split_aux [] s' | _ => cur :: split_aux [] s' end
      else split_aux (cur ++ [c]) s'
  end.

Definition split (s : text) : list text := split_aux [] s.

(** [sep.join(l)] *)
Fixpoint join (sep : text) (l : list text) : text :=
  match l with
  | [] => []
  | [x] => x
  | x :: l' => x ++ sep ++ join sep l'
  end.

(** ** The document tree of BeautifulSoup *)

(** A page element is a string or a tag with a name, its attributes as
    written in the markup (a dict) and its contents.  The
    [BeautifulSoup] object itself is the root tag. *)
Inductive node : Type :=
| NavigableString (s : text)
| Tag (name : text) (attrs : gmap text text) (contents : list node).

(** Induction over a document tree, with the hypothesis for every
    element of the contents of a tag. *)
Section NodeInduction.

Variable P : node -> Prop.
Hypothesis P_string : forall s, P (NavigableString s).
Hypothesis P_tag : forall name attrs cs, Forall P cs -> P (Tag name attrs cs).

Fixpoint node_tree_ind (n : node) : P n :=
  match n with
  | NavigableString s => P_string s
  | Tag name attrs cs =>
      P_tag name attrs cs
        ((fix all (l : list node) : Forall P l :=
            match l with
            | [] => @List.Forall_nil node P
            | c :: l' => @List.Forall_cons node P c l' (node_tree_ind c) (all l')
            end) cs)
  end.

End NodeInduction.

(** An attribute value as [Tag.get] returns it: a string, or for the
    multi-valued attributes of HTML the list of its whitespace-separated
    tokens. *)
Inductive attr_value : Type :=
| AStr (s : text)
| AList (l : list text).

(** The table of multi-valued attributes of the HTML tree builder. *)
Definition multi_valued (tag key : text) : bool :=
  existsb (text_eqb key) [str "class"; str "accesskey"; str "dropzone"]
  || (existsb (text_eqb tag) [str "a"; str "link"]
      && existsb (text_eqb key) [str "rel"; str "rev"])
  || (existsb (text_eqb tag) [str "td"; str "th"] && text_eqb key (str "headers"))
  || (text_eqb tag (str "form") && text_eqb key (str "accept-charset"))
  || (text_eqb tag (str "object") && text_eqb key (str "archive"))
  || (text_eqb tag (str "area") && text_eqb key (str "rel"))
  || (text_eqb tag (str "icon") && text_eqb key (str "sizes"))
  || (text_eqb tag (str "iframe") && text_eqb key (str "sandbox"))
  || (text_eqb tag (str "output") && text_eqb key (str "for")).

(** [tag.get(key)]; [None] when the attribute is absent. *)
Definition tag_get (n : node) (key : text) : option attr_value :=
  match n with
  | NavigableString _ => None
  | Tag name attrs _ =>
      match attrs !! key with
      | None => None
      | Some raw =>
          Some (if multi_valued name key then AList (split raw) else AStr raw)
      end
  end.

(** All elements below [n], in document order. *)
Fixpoint descendants (n : node) : list node :=
  match n with
  | NavigableString _ => []
  | Tag _ _ cs => flat_map (fun c => c :: descendants c) cs
  end.

(** [tag.text]: the strings below the tag, concatenated. *)
Fixpoint get_text (n : node) : text :=
  match n with
  | NavigableString s => s
  | Tag _ _ cs => flat_map get_text cs
  end.

(** Matching of an attribute value against a string filter: a
    multi-valued attribute matches when one of its tokens does, or when
    the tokens joined by a space do. *)
Definition matches_value (v : attr_value) (want : text) : bool :=
  match v with
  | AStr s => text_eqb s want
  | AList l => existsb (fun t => text_eqb t want) l
               || text_eqb (join (str " ") l) want
  end.

(** Does [n] pass the filter of [find_all(name, **kw)]? *)
Definition matches_tag (name : text) (kw : list (text * text)) (n : node) : bool :=
  match n with
  | NavigableString _ => false
  | Tag nm _ _ =>
      text_eqb nm name
      && forallb (fun '(k, want) =>
                    match tag_get n k with
                    | Some v => matches_value v want
                    | None => false
                    end) kw
  end.

(** [tag.find_all(name, **kw)] *)
Definition find_all (name : text) (kw : list (text * text)) (n : node) : list node :=
  List.filter (matches_tag name kw) (descendants n).

(** [tag.find(name, **kw)]: the first match, or [None]. *)
Definition find (name : text) (kw : list (text * text)) (n : node) : option node :=
  head (find_all name kw n).

(** The keyword filters of the source. *)
Definition class_ (c : string) : list (text * text) := [(str "class", str c)].
Definition headers_ (h : string) : list (text * text) := [(str "headers", str h)].

(** ** The extractors of [main.py] *)

(** A municipality link: (result-page URL, code, name). *)
Abbreviation obec_info := (text * text * text)%type.

(** Truth value of a Python string. *)
Definition nonempty (s : text) : bool :=
  match s with [] => false | _ => true end.

Section Extractors.

(** [urllib.parse.urljoin] *)
Variable urljoin : text -> text -> text.

(** One iteration of the loop of [get_obec_links].  A [Tag] is always
    true, so [if cislo_td and name_td] and [if a] test for [None];
    [a.get('href')] is a string when present ([href] is not
    multi-valued), true when it is not empty. *)
Definition get_obec_links_body (base_url : text)
    (results : list obec_info) (row : node) : list obec_info :=
  let cislo_td := find (str "td") (class_ "cislo") row in
  let name_td := find (str "td") (class_ "overflow_name") row in
  match cislo_td, name_td with
  | Some cislo_td, Some name_td =>
      let a := find (str "a") [] cislo_td in
      match a with
      | Some a =>
          match tag_get a (str "href") with
          | Some (AStr href) =>
              if nonempty href then
                let full_url := urljoin base_url href in
                let code := strip (get_text a) in
                let name := strip (get_text name_td) in
                results ++ [(full_url, code, name)]
              else results
          | _ => results
          end
      | None => results
      end
  | _, _ => results
  end.

Definition get_obec_links (soup : node) (base_url : text) : list obec_info :=
  fold_left (get_obec_links_body base_url) (find_all (str "tr") [] soup) [].

End Extractors.

(** The inner loop of [get_party_names] over the rows of one table. *)
Definition get_party_names_rows (names : list text) (trs : list node) : list text :=
  fold_left (fun names tr =>
               match find (str "td") (class_ "overflow_name") tr with
               | Some name_td => names ++ [strip (get_text name_td)]
               | None => names
               end) trs names.

Definition get_party_names (soup : node) : list text :=
  fold_left (fun names table =>
               get_party_names_rows names (find_all (str "tr") [] table))
            (find_all (str "table") [] soup) [].

(** [td.get('headers', '')] followed by the [isinstance] test: the
    tokens of the [headers] attribute. *)
Definition headers_tokens (td : node) : list text :=
  let headers := match tag_get td (str "headers") with
                 | Some v => v
                 | None => AStr []
                 end in
  match headers with
  | AStr s => split s
  | AList l => l
  end.

(** The [for td in ...: if any(...): vote_td = td; break] loop of
    [parse_obec_data]. *)
Fixpoint vote_td_loop (tds : list node) : option node :=
  match tds with
  | [] => None
  | td :: rest =>
      if existsb (fun h => endswith h (str "sa2")) (headers_tokens td)
      then Some td
      else vote_td_loop rest
  end.

(** The body of the row loop of [parse_obec_data]. *)
Definition hlasy_body (hlasy : list text) (tr : node) : list text :=
  match find (str "td") (class_ "overflow_name") tr with
  | None => hlasy
  | Some _ =>
      match vote_td_loop (find_all (str "td") (class_ "cislo") tr) with
      | Some vote_td => hlasy ++ [remove_char nbsp (strip (get_text vote_td))]
      | None => hlasy ++ [[]]
      end
  end.

(** The party loop of [parse_obec_data] (lines 116-137): the vote-count
    segment of the page. *)
Definition hlasy_loop (soup : node) : list text :=
  fold_left (fun hlasy table =>
               fold_left hlasy_body (find_all (str "tr") [] table) hlasy)
            (find_all (str "table") [] soup) [].

(** ** [csv.writer] with the default (excel) dialect *)

Definition delimiter : N := 44%N.
Definition quotechar : N := 34%N.
Definition CR : N := 13%N.
Definition LF : N := 10%N.

(** Characters that force a field to be quoted ([QUOTE_MINIMAL]): the
    delimiter, the quote character and those of the line terminator. *)
Definition special (c : N) : bool :=
  (c =? delimiter)%N || (c =? quotechar)%N || (c =? CR)%N || (c =? LF)%N.

(** Quotes are doubled inside a quoted field. *)
Definition escape (f : text) : text :=
  flat_map (fun c => if (c =? quotechar)%N then [quotechar; quotechar] else [c]) f.

Definition csv_field (f : text) : text :=
  if existsb special f then quotechar :: escape f ++ [quotechar] else f.

(** [writer.writerow(row)]: a record whose only field is empty is written
    as a pair of quotes. *)
Definition writerow (row : list text) : text :=
  match row with
  | [[]] => [quotechar; quotechar]
  | _ => join [delimiter] (map csv_field row)
  end ++ [CR; LF].

(** [writer.writerows(rows)] *)
Definition writerows (rows : list (list text)) : text :=
  flat_map writerow rows.

(** ** Reading delimited text back

    The automaton of [csv.reader] (excel dialect).  The reader of the
    library is fed the file line by line, line ends kept, with an
    end-of-line mark after each line; here it runs over the characters of
    the whole file: outside quotes a record ends at a carriage return,
    with the line feed that may follow it, or at a line feed. *)

Inductive reader_state : Type :=
| START_RECORD | START_FIELD | IN_FIELD
| IN_QUOTED_FIELD | QUOTE_IN_QUOTED_FIELD | AFTER_CR.

Record reader : Type := mkReader {
  r_state : reader_state;
  r_field : text;               (* the field being read *)
  r_fields : list text;         (* the fields of the record being read *)
  r_records : list (list text)  (* the records read so far *)
}.

Definition add_char (c : N) (st : reader_state) (r : reader) : reader :=
  mkReader st (r_field r ++ [c]) (r_fields r) (r_records r).

Definition save_field (st : reader_state) (r : reader) : reader :=
  mkReader st [] (r_fields r ++ [r_field r]) (r_records r).

(** End of a record: the current field is saved and the record emitted. *)
Definition end_record (st : reader_state) (r : reader) : reader :=
  mkReader st [] [] (r_records r ++ [r_fields r ++ [r_field r]]).

(** A blank line is the empty record. *)
Definition blank_record (st : reader_state) (r : reader) : reader :=
  mkReader st [] [] (r_records r ++ [[]]).

Definition set_state (st : reader_state) (r : reader) : reader :=
  mkReader st (r_field r) (r_fields r) (r_records r).

Definition start_field (c : N) (r : reader) : reader :=
  if (c =? CR)%N then end_record AFTER_CR r
  else if (c =? LF)%N then end_record START_RECORD r
  else if (c =? quotechar)%N then set_state IN_QUOTED_FIELD r
  else if (c =? delimiter)%N then save_field START_FIELD r
  else add_char c IN_FIELD r.

Definition start_record (c : N) (r : reader) : reader :=
  if (c =? CR)%N then blank_record AFTER_CR r
  else if (c =? LF)%N then blank_record START_RECORD r
  else start_field c r.

Definition reader_step (r : reader) (c : N) : reader :=
  match r_state r with
  | START_RECORD => start_record c r
  | START_FIELD => start_field c r
  | IN_FIELD =>
      if (c =? CR)%N then end_record AFTER_CR r
      else if (c =? LF)%N then end_record START_RECORD r
      else if (c =? delimiter)%N then save_field START_FIELD r
      else add_char c IN_FIELD r
  | IN_QUOTED_FIELD =>
      if (c =? quotechar)%N then set_state QUOTE_IN_QUOTED_FIELD r
      else add_char c IN_QUOTED_FIELD r
  | QUOTE_IN_QUOTED_FIELD =>
      if (c =? quotechar)%N then add_char c IN_QUOTED_FIELD r
      else if (c =? delimiter)%N then save_field START_FIELD r
      else if (c =? CR)%N then end_record AFTER_CR r
      else if (c =? LF)%N then end_record START_RECORD r
      else add_char c IN_FIELD r
  | AFTER_CR =>
      if (c =? LF)%N then set_state START_RECORD r
      else start_record c r
  end.

(** At the end of the input an unfinished record is emitted. *)
Definition reader_finish (r : reader) : list (list text) :=
  match r_state r with
  | START_RECORD | AFTER_CR => r_records r
  | _ => r_records r ++ [r_fields r ++ [r_field r]]
  end.

Definition csv_read (s : text) : list (list text) :=
  reader_finish (fold_left reader_step s (mkReader START_RECORD [] [] [])).

(** ** Effects: network, standard output, file system *)

(** What [requests.get] yields: a transport failure (an exception), or a
    response with a status code.  The body is represented by the tree
    that [BeautifulSoup(response.text, 'html.parser')] builds from it. *)
Inductive response : Type :=
| TransportFailure
| Response (status_code : Z) (body : node).

Inductive exn : Type :=
| RequestException            (* raised by [requests.get] *)
| HTTPError (status_code : Z) (* raised by [raise_for_status] *)
| AttributeError              (* [None.text] *)
| OSError.                    (* raised by [open] *)

Inductive result (A : Type) : Type :=
| Ok (a : A)
| Raise (e : exn).
Arguments Ok {A} a.
Arguments Raise {A} e.

(** The lines the script prints. *)
Inductive message : Type :=
| MsgArgCount       (* "❌ Zadejte přesně dva argumenty: <URL> <název_souboru.csv>" *)
| MsgBadUrl         (* "❌ První argument musí být platný odkaz na stránku územního celku z volby.cz." *)
| MsgBadFile        (* "❌ Druhý argument musí být název CSV souboru končící na .csv" *)
| MsgLoadingMain    (* "🔄 Načítám hlavní stránku..." *)
| MsgNoObce         (* "❌ Žádné obce nebyly nalezeny." *)
| MsgLoadingParties (* "📋 Načítám názvy stran z první obce..." *)
| MsgProgress (i n : nat) (name : text) (* "📥 {i}/{len(obec_infos)} Zpracovávám: {name}" *)
| MsgDone (output_file : text).         (* "✅ Hotovo! Výsledky byly uloženy do souboru: {output_file}" *)

(** The error messages (those printed with a cross mark). *)
Definition is_diagnostic (m : message) : bool :=
  match m with
  | MsgArgCount | MsgBadUrl | MsgBadFile | MsgNoObce => true
  | _ => false
  end.

(** [raise_for_status] raises for the 4xx and 5xx codes. *)
Definition is_error_status (code : Z) : bool :=
  (400 <=? code)%Z && (code <? 600)%Z.

Section Program.

(** The outside world: the state of the network and what a GET request
    returns in it. *)
Variable World : Type.
Variable requests_get : text -> World -> response * World.
(** Whether [open(filename, mode='w')] succeeds. *)
Variable writable : text -> bool.
Variable urljoin : text -> text -> text.

Record state : Type := mkState {
  st_world : World;
  st_net : list (text * response);  (* the requests made, with their outcome *)
  st_out : list message;            (* standard output *)
  st_fs : gmap text text            (* the files, by name *)
}.

Definition M (A : Type) : Type := state -> result A * state.

#[local] Instance M_ret : MRet M := fun A a s => (Ok a, s).
#[local] Instance M_bind : MBind M := fun A B f m s =>
  match m s with
  | (Ok a, s') => f a s'
  | (Raise e, s') => (Raise e, s')
  end.

Definition raise {A} (e : exn) : M A := fun s => (Raise e, s).

Definition print (m : message) : M unit := fun s =>
  (Ok tt, mkState (st_world s) (st_net s) (st_out s ++ [m]) (st_fs s)).

Definition http_get (url : text) : M response := fun s =>
  let '(r, w) := requests_get url (st_world s) in
  (Ok r, mkState w (st_net s ++ [(url, r)]) (st_out s) (st_fs s)).

Definition write_file (filename content : text) : M unit := fun s =>
  if writable filename
  then (Ok tt, mkState (st_world s) (st_net s) (st_out s)
                       (<[filename := content]> (st_fs s)))
  else (Raise OSError, s).

Definition validate_arguments (args : list text) : M bool :=
  if negb (length args =? 3) then
    print MsgArgCount;; mret false
  else if negb (startswith (nth 1 args [])
                           (str "https://www.volby.cz/pls/ps2017nss/ps3")) then
    print MsgBadUrl;; mret false
  else if negb (endswith (nth 2 args []) (str ".csv")) then
    print MsgBadFile;; mret false
  else mret true.

Definition get_soup (url : text) : M node :=
  response ← http_get url;
  match response with
  | TransportFailure => raise RequestException
  | Response status_code body =>
      if is_error_status status_code then raise (HTTPError status_code)
      else mret body
  end.

(** [soup.find('td', headers=h).text.strip().replace('\xa0', '')] *)
Definition scalar_cell (soup : node) (h : string) : M text :=
  match find (str "td") (headers_ h) soup with
  | None => raise AttributeError
  | Some td => mret (remove_char nbsp (strip (get_text td)))
  end.

Definition parse_obec_data (url : text) : M (list text) :=
  soup ← get_soup url;
  volici ← scalar_cell soup "sa2";
  obalky ← scalar_cell soup "sa3";
  platne ← scalar_cell soup "sa6";
  let hlasy := hlasy_loop soup in
  mret ([volici; obalky; platne] ++ hlasy).

(** The file is kept as its text: its bytes are the UTF-8 encoding of
    it. *)
Definition save_to_csv (filename : text) (header : list text)
    (data : list (list text)) : M unit :=
  write_file filename (writerows (header :: data)).

(** The loop of [main] over [enumerate(obec_infos, 1)]; [n] is
    [len(obec_infos)], [i] the running index, [data] the rows so far. *)
Fixpoint main_loop (n i : nat) (infos : list obec_info)
    (data : list (list text)) : M (list (list text)) :=
  match infos with
  | [] => mret data
  | (link, code, name) :: rest =>
      print (MsgProgress i n name);;
      row ← parse_obec_data link;
      let full_row := [code; name] ++ row in
      main_loop n (S i) rest (data ++ [full_row])
  end.

Definition fixed_header : list text :=
  [str "code"; str "location"; str "registered"; str "envelopes"; str "valid"].

Definition main (argv : list text) : M unit :=
  ok ← validate_arguments argv;
  if negb ok then mret tt else
  let url := nth 1 argv [] in
  let output_file := nth 2 argv [] in
  print MsgLoadingMain;;
  main_soup ← get_soup url;
  let obec_infos := get_obec_links urljoin main_soup url in
  match obec_infos with
  | [] => print MsgNoObce;; mret tt
  | (first_link, _, _) :: _ =>
      print MsgLoadingParties;;
      first_obec_soup ← get_soup first_link;
      let party_names := get_party_names first_obec_soup in
      let header := fixed_header ++ party_names in
      data ← main_loop (length obec_infos) 1 obec_infos [];
      save_to_csv output_file header data;;
      print (MsgDone output_file)
  end.

(** The state in which the script starts: nothing requested, nothing
    printed. *)
Definition initial (w : World) (fs : gmap text text) : state :=
  mkState w [] [] fs.

End Program.

Arguments st_world {World} s.
Arguments st_net {World} s.
Arguments st_out {World} s.
Arguments st_fs {World} s.

(** ** Notions of the specification *)

Definition is_some {A} (o : option A) : bool :=
  match o with Some _ => true | None => false end.

(** The overflow-name cell of a row, if it has one. *)
Definition name_cell (tr : node) : option node :=
  find (str "td") (class_ "overflow_name") tr.

(** A party row is a row with an overflow-name cell. *)
Definition is_party_row (tr : node) : bool := is_some (name_cell tr).

(** The party rows of a page: those of every table, tables in document
    order, the rows of a table in document order. *)
Definition party_rows (soup : node) : list node :=
  flat_map (fun table => List.filter is_party_row (find_all (str "tr") [] table))
           (find_all (str "table") [] soup).

Definition party_name (tr : node) : text :=
  match name_cell tr with
  | Some td => strip (get_text td)
  | None => []
  end.

(** A votes cell: a [cislo] cell one of whose [headers] tokens ends in
    the votes suffix [sa2]. *)
Definition is_votes_cell (td : node) : bool :=
  existsb (fun h => endswith h (str "sa2")) (headers_tokens td).

Definition votes_cell (tr : node) : option node :=
  List.find is_votes_cell (find_all (str "td") (class_ "cislo") tr).

(** The vote count of a party row; the empty string when the row has no
    votes cell. *)
Definition party_votes (tr : node) : text :=
  match votes_cell tr with
  | Some td => remove_char nbsp (strip (get_text td))
  | None => []
  end.

(** The numeric-code cell of a row and its hyperlink. *)
Definition code_cell (row : node) : option node :=
  find (str "td") (class_ "cislo") row.

Definition hyperlink (row : node) : option node :=
  match code_cell row with
  | Some td => find (str "a") [] td
  | None => None
  end.

(** The target of the hyperlink of a row, when it has a non-empty one. *)
Definition link_target (row : node) : option text :=
  match hyperlink row with
  | Some a =>
      match tag_get a (str "href") with
      | Some (AStr href) => if nonempty href then Some href else None
      | _ => None
      end
  | None => None
  end.

(** A row qualifies as a municipality row when it has a numeric-code
    cell and an overflow-name cell and the code cell holds a hyperlink
    with a target. *)
Definition qualifies (row : node) : bool :=
  is_some (code_cell row) && is_some (name_cell row) && is_some (link_target row).

(** The triple a qualifying row stands for. *)
Definition obec_of_row (urljoin : text -> text -> text) (base_url : text)
    (row : node) : obec_info :=
  (urljoin base_url (default [] (link_target row)),
   match hyperlink row with Some a => strip (get_text a) | None => [] end,
   party_name row).

(** An absolute URL starts with a scheme: a letter, then letters, digits,
    [+], [-] or [.], up to a colon. *)
Definition is_alpha (c : N) : bool :=
  ((65 <=? c) && (c <=? 90) || (97 <=? c) && (c <=? 122))%N.

Definition is_scheme_char (c : N) : bool :=
  (is_alpha c || (48 <=? c) && (c <=? 57) || (c =? 43) || (c =? 45) || (c =? 46))%N.

Fixpoint scheme_rest (s : text) : bool :=
  match s with
  | [] => false
  | c :: s' => if (c =? 58)%N then true else is_scheme_char c && scheme_rest s'
  end.

Definition is_absolute (url : text) : bool :=
  match url with
  | [] => false
  | c :: s => is_alpha c && scheme_rest s
  end.

(** The three mandatory scalar cells of a municipality page, and the
    values parsed from a page that has them. *)
Definition scalar_value (soup : node) (h : string) : option text :=
  match find (str "td") (headers_ h) soup with
  | Some td => Some (remove_char nbsp (strip (get_text td)))
  | None => None
  end.

Definition has_scalars (soup : node) : bool :=
  is_some (scalar_value soup "sa2") && is_some (scalar_value soup "sa3")
  && is_some (scalar_value soup "sa6").

Definition page_values (soup : node) : list text :=
  [default [] (scalar_value soup "sa2");
   default [] (scalar_value soup "sa3");
   default [] (scalar_value soup "sa6")]
  ++ map party_votes (party_rows soup).

(** A fetch fails on a transport failure or an error status. *)
Definition fetch_failed (r : response) : bool :=
  match r with
  | TransportFailure => true
  | Response code _ => is_error_status code
  end.

(** A municipality fetch that makes [parse_obec_data] fail: the fetch
    failed or the page lacks one of the scalar cells. *)
Definition parse_fails (r : response) : bool :=
  match r with
  | TransportFailure => true
  | Response code page => is_error_status code || negb (has_scalars page)
  end.

(** The requests of the municipality loop and the rows they give: one
    request and one row per municipality, in order. *)
Inductive rows_of : list obec_info -> list (text * response) -> list (list text) -> Prop :=
| rows_of_nil : rows_of [] [] []
| rows_of_cons link code name infos status page net rows :
    is_error_status status = false ->
    has_scalars page = true ->
    rows_of infos net rows ->
    rows_of ((link, code, name) :: infos)
            ((link, Response status page) :: net)
            ((code :: name :: page_values page) :: rows).

(** The vote-count segment of an output row and the party list of the
    header: what follows the five fixed columns. *)
Definition vote_segment (row : list text) : list text := skipn 5 row.
Definition party_list (header : list text) : list text := skipn 5 header.

(** The structure of a page: the tree with the contents of its strings
    erased. *)
Fixpoint shape (n : node) : node :=
  match n with
  | NavigableString _ => NavigableString []
  | Tag name attrs cs => Tag name attrs (map shape cs)
  end.

(** A run is successful when [main] returns and its last line of output
    reports the file written. *)
Definition successful {World} (argv : list text) (out : result unit * state World) : Prop :=
  fst out = Ok tt /\ last (st_out (snd out)) = Some (MsgDone (nth 2 argv [])).

(** The argument lists the validator is meant to accept. *)
Definition url_prefix : text := str "https://www.volby.cz/pls/ps2017nss/ps3".

Definition valid_args (args : list text) : Prop :=
  exists prog url output_file rest stem,
    args = [prog; url; output_file]
    /\ url = url_prefix ++ rest
    /\ output_file = stem ++ str ".csv".

(** What [parse_obec_data] makes of the response to its request. *)
Definition parse_result (r : response) : result (list text) :=
  match r with
  | TransportFailure => Raise RequestException
  | Response code page =>
      if is_error_status code then Raise (HTTPError code)
      else if has_scalars page then Ok (page_values page)
      else Raise AttributeError
  end.

(** What [get_soup] makes of the response to its request. *)
Definition soup_result (r : response) : result node :=
  match r with
  | TransportFailure => Raise RequestException
  | Response code page =>
      if is_error_status code then Raise (HTTPError code) else Ok page
  end.

(** The requests of a municipality loop that stops at a failure: good
    ones, then the failing one, whose error [e] ends the loop. *)
Inductive loop_fails (e : exn) : list obec_info -> list (text * response) -> Prop :=
| loop_fails_here link code name infos r :
    parse_result r = Raise e ->
    loop_fails e ((link, code, name) :: infos) [(link, r)]
| loop_fails_later link code name infos status page net :
    is_error_status status = false ->
    has_scalars page = true ->
    loop_fails e infos net ->
    loop_fails e ((link, code, name) :: infos) ((link, Response status page) :: net).

(** The progress lines of the loop. *)
Fixpoint progress_lines (n i : nat) (infos : list obec_info) : list message :=
  match infos with
  | [] => []
  | (_, _, name) :: rest => MsgProgress i n name :: progress_lines n (S i) rest
  end.

Section Outcomes.

Variable urljoin : text -> text -> text.

(** The ways a run of [main] can go, as result, requests made, lines
    printed and files at the end.  [fs] are the files at the start. *)
Inductive main_outcome (argv : list text) (fs : gmap text text) :
  result unit -> list (text * response) -> list message -> gmap text text -> Prop :=
| run_rejected m :
    ~ valid_args argv ->
    is_diagnostic m = true -> m <> MsgNoObce ->
    main_outcome argv fs (Ok tt) [] [m] fs
| run_unit_failed prog url output_file r e :
    argv = [prog; url; output_file] ->
    soup_result r = Raise e ->
    main_outcome argv fs (Raise e) [(url, r)] [MsgLoadingMain] fs
| run_no_obce prog url output_file status page :
    argv = [prog; url; output_file] ->
    is_error_status status = false ->
    get_obec_links urljoin page url = [] ->
    main_outcome argv fs (Ok tt) [(url, Response status page)]
                 [MsgLoadingMain; MsgNoObce] fs
| run_first_failed prog url output_file status page link code name infos r e :
    argv = [prog; url; output_file] ->
    is_error_status status = false ->
    get_obec_links urljoin page url = (link, code, name) :: infos ->
    soup_result r = Raise e ->
    main_outcome argv fs (Raise e) [(url, Response status page); (link, r)]
                 [MsgLoadingMain; MsgLoadingParties] fs
| run_loop_failed prog url output_file status page link code name infos
      status1 first_page net out e :
    argv = [prog; url; output_file] ->
    is_error_status status = false ->
    get_obec_links urljoin page url = (link, code, name) :: infos ->
    is_error_status status1 = false ->
    loop_fails e ((link, code, name) :: infos) net ->
    main_outcome argv fs (Raise e)
                 ((url, Response status page) :: (link, Response status1 first_page) :: net)
                 out fs
| run_write_failed prog url output_file status page link code name infos
      status1 first_page net rows out :
    argv = [prog; url; output_file] ->
    is_error_status status = false ->
    get_obec_links urljoin page url = (link, code, name) :: infos ->
    is_error_status status1 = false ->
    rows_of ((link, code, name) :: infos) net rows ->
    main_outcome argv fs (Raise OSError)
                 ((url, Response status page) :: (link, Response status1 first_page) :: net)
                 out fs
| run_written prog url output_file status page link code name infos
      status1 first_page net rows :
    argv = [prog; url; output_file] ->
    is_error_status status = false ->
    get_obec_links urljoin page url = (link, code, name) :: infos ->
    is_error_status status1 = false ->
    rows_of ((link, code, name) :: infos) net rows ->
    main_outcome argv fs (Ok tt)
                 ((url, Response status page) :: (link, Response status1 first_page) :: net)
                 ([MsgLoadingMain; MsgLoadingParties]
                  ++ progress_lines (S (length infos)) 1 ((link, code, name) :: infos)
                  ++ [MsgDone output_file])
                 (<[output_file :=
                      writerows ((fixed_header ++ get_party_names first_page) :: rows)]> fs).

End Outcomes.

(** A party row without a votes cell: no [cislo] cell of the row has a
    [headers] token that ends in [sa2]. *)
Definition no_votes_cell (tr : node) : Prop :=
  forall td h,
    In td (find_all (str "td") (class_ "cislo") tr) ->
    In h (headers_tokens td) ->
    forall p, h <> p ++ str "sa2".

(** ** Sample pages

    Pages in the markup of the portal, used to run the script on: the
    end-to-end scenario of the specification and variations of it. *)

Module Sample.

(** An element with the given attributes and contents; a string. *)
Definition el (name : string) (attrs : list (string * string))
    (contents : list node) : node :=
  Tag (str name) (list_to_map (map (fun '(k, v) => (str k, str v)) attrs)) contents.

Definition txt (s : string) : node := NavigableString (str s).

(** A number printed with a no-break space after the thousands. *)
Definition num (thousands units : string) : node :=
  NavigableString (str thousands ++ [nbsp] ++ str units).

Definition document (body : list node) : node :=
  el "[document]" [] [el "html" [] [el "body" [] body]].

(** A municipality row of a territorial-unit page. *)
Definition obec_row (href code name : string) : node :=
  el "tr" []
     [el "td" [("class", "cislo"); ("headers", "t1sa1 t1sb1")]
         [el "a" [("href", href)] [txt code]];
      el "td" [("class", "overflow_name"); ("headers", "t1sa1 t1sb2")] [txt name]].

(** A party row of table [t] of a municipality page: order number,
    name, votes. *)
Definition party_row (t number name votes : string) : node :=
  el "tr" []
     [el "td" [("class", "cislo"); ("headers", t +:+ "sa1 " +:+ t +:+ "sb1")] [txt number];
      el "td" [("class", "overflow_name"); ("headers", t +:+ "sa1 " +:+ t +:+ "sb2")] [txt name];
      el "td" [("class", "cislo"); ("headers", t +:+ "sa2 " +:+ t +:+ "sb3")] [txt votes]].

(** A party row whose votes cell is missing. *)
Definition party_row_no_votes (t number name : string) : node :=
  el "tr" []
     [el "td" [("class", "cislo"); ("headers", t +:+ "sa1 " +:+ t +:+ "sb1")] [txt number];
      el "td" [("class", "overflow_name"); ("headers", t +:+ "sa1 " +:+ t +:+ "sb2")] [txt name]].

(** The table with the scalar counters of a municipality page. *)
Definition scalars (registered envelopes valid : node) : node :=
  el "table" [("class", "table")]
     [el "tr" []
         [el "td" [("class", "cislo"); ("headers", "sa2")] [registered];
          el "td" [("class", "cislo"); ("headers", "sa3")] [envelopes];
          el "td" [("class", "cislo"); ("headers", "sa6")] [valid]]].

Definition unit_page : node :=
  document
    [el "table" [("class", "table")]
        [el "tr" [] [el "th" [] [txt "cislo"]; el "th" [] [txt "nazev"]];
         obec_row "ps311?xobec=500054" "500054" "Querfurt";
         obec_row "ps311?xobec=500062" "500062" "Beispiel"]].

(** A territorial-unit page without municipality rows. *)
Definition empty_unit_page : node :=
  document
    [el "table" [("class", "table")]
        [el "tr" [] [el "th" [] [txt "cislo"]; el "th" [] [txt "nazev"]]]].

Definition page_A : node :=
  document
    [scalars (num "1" "000") (txt "800") (txt "790");
     el "table" [] [party_row "t1" "1" "Strana X" "400"];
     el "table" [] [party_row "t2" "2" "Strana Y" "390"]].

Definition page_B : node :=
  document
    [scalars (num "2" "000") (num "1" "500") (num "1" "480");
     el "table" [] [party_row "t1" "1" "Strana X" "700"];
     el "table" [] [party_row "t2" "2" "Strana Y" "780"]].

(** Municipality B with a single party on its page. *)
Definition page_B_one_party : node :=
  document
    [scalars (num "2" "000") (num "1" "500") (num "1" "480");
     el "table" [] [party_row "t1" "1" "Strana X" "700"]].

(** Municipality B with the votes cell of the second party missing. *)
Definition page_B_no_votes : node :=
  document
    [scalars (num "2" "000") (num "1" "500") (num "1" "480");
     el "table" [] [party_row "t1" "1" "Strana X" "700"];
     el "table" [] [party_row_no_votes "t2" "2" "Strana Y"]].

(** Municipality B without the cell of the issued envelopes. *)
Definition page_B_no_envelopes : node :=
  document
    [el "table" [("class", "table")]
        [el "tr" []
            [el "td" [("class", "cislo"); ("headers", "sa2")] [num "2" "000"];
             el "td" [("class", "cislo"); ("headers", "sa6")] [num "1" "480"]]];
     el "table" [] [party_row "t1" "1" "Strana X" "700"];
     el "table" [] [party_row "t2" "2" "Strana Y" "780"]].

Definition portal : string := "https://www.volby.cz/pls/ps2017nss/".
Definition unit_url : text := str (portal +:+ "ps32?xkraj=2&xnumnuts=2101").
Definition url_A : text := str (portal +:+ "ps311?xobec=500054").
Definition url_B : text := str (portal +:+ "ps311?xobec=500062").
Definition argv : list text := [str "main.py"; unit_url; str "vysledky.csv"].

(** A stand-in for [urljoin]: a reference with a scheme is taken as it
    is, any other one replaces what follows the last slash of the base. *)
Fixpoint directory (done cur : text) (s : text) : text :=
  match s with
  | [] => done
  | c :: s' =>
      if (c =? 47)%N then directory (done ++ cur ++ [c]) [] s'
      else directory done (cur ++ [c]) s'
  end.

Definition resolve (base ref : text) : text :=
  if is_absolute ref then ref else directory [] [] base ++ ref.

(** A web that serves fixed pages: the response listed for the URL, and
    status 404 for any other. *)
Fixpoint serve (site : list (text * response)) (url : text) (w : unit)
    : response * unit :=
  match site with
  | [] => (Response 404 (document []), w)
  | (u, r) :: site' => if text_eqb u url then (r, w) else serve site' url w
  end.

Definition site_with (unit_p page_b : response) : list (text * response) :=
  [(unit_url, unit_p); (url_A, Response 200 page_A); (url_B, page_b)].

Definition site_ok : list (text * response) :=
  site_with (Response 200 unit_page) (Response 200 page_B).
Definition site_one_party : list (text * response) :=
  site_with (Response 200 unit_page) (Response 200 page_B_one_party).
Definition site_no_votes : list (text * response) :=
  site_with (Response 200 unit_page) (Response 200 page_B_no_votes).
Definition site_no_envelopes : list (text * response) :=
  site_with (Response 200 unit_page) (Response 200 page_B_no_envelopes).
Definition site_unavailable : list (text * response) :=
  site_with (Response 200 unit_page) (Response 503 (document [])).
Definition site_empty : list (text * response) :=
  site_with (Response 200 empty_unit_page) (Response 200 page_B).

(** The run of the script on such a web, from no files at all. *)
Definition run (site : list (text * response)) : result unit * state unit :=
  main unit (serve site) (fun _ => true) resolve argv (initial unit tt ∅).

(** The table written by a run, read back. *)
Definition table_written (out : result unit * state unit) : option (list (list text)) :=
  csv_read <$> st_fs (snd out) !! str "vysledky.csv".


(** A page of tables of party names only (4.4): one row per name. *)
Definition name_row (name : text) : node :=
  Tag (str "tr") ∅
      [Tag (str "td") {[ str "class" := str "overflow_name" ]} [NavigableString name]].

Definition names_table (names : list text) : node :=
  Tag (str "table") ∅ (map name_row names).

Definition names_page (tables : list (list text)) : node :=
  Tag (str "[document]") ∅ (map names_table tables).

End Sample.


(** ** Further notions: clean values, requests, plain rows *)

(** A string that does not begin with whitespace (the empty string does
    not). *)
Definition starts_clean (s : text) : bool :=
  match s with
  | [] => true
  | c :: _ => negb (isspace c)
  end.

(** A trimmed string: no whitespace at either end. *)
Definition trimmed (s : text) : bool :=
  starts_clean s && starts_clean (rev s).


(** The link of a municipality triple. *)
Definition info_link (info : obec_info) : text := fst (fst info).

(** The name of a municipality triple. *)
Definition info_name (info : obec_info) : text := snd info.


(** An overflow-name cell. *)
Definition is_name_cell (c : node) : bool :=
  matches_tag (str "td") (class_ "overflow_name") c.

(** * Properties *)

(** ** Strings *)

Lemma startswith_spec (s p : text) :
  startswith s p = true <-> exists r, s = p ++ r.
Proof.
  revert s. induction p as [|c p IH]; intros s; simpl.
  - split; [intros _; now exists s | reflexivity].
  - destruct s as [|d s]; simpl.
    + split; [discriminate | intros [r Hr]; discriminate].
    + rewrite andb_true_iff, N.eqb_eq, IH. split.
      * intros [-> [r ->]]. now exists r.
      * intros [r Hr]. injection Hr as -> ->. split; [reflexivity | now exists r].
Qed.

Lemma endswith_spec (s p : text) :
  endswith s p = true <-> exists r, s = r ++ p.
Proof.
  unfold endswith. rewrite startswith_spec. split.
  - intros [r Hr]. exists (rev r).
    rewrite <- (rev_involutive s), Hr, rev_app_distr, rev_involutive. reflexivity.
  - intros [r ->]. exists (rev r). apply rev_app_distr.
Qed.

Lemma text_eqb_eq (a b : text) : text_eqb a b = true <-> a = b.
Proof. unfold text_eqb. apply bool_decide_eq_true. Qed.

(** ** Loops that append to an accumulator *)

Lemma fold_left_append {A B} (f : A -> list B) (l : list A) (acc : list B) :
  fold_left (fun acc x => acc ++ f x) l acc = acc ++ flat_map f l.
Proof.
  revert acc. induction l as [|x l IH]; intros acc; simpl.
  - now rewrite app_nil_r.
  - now rewrite IH, app_assoc.
Qed.

Lemma fold_left_ext_eq {A B} (f g : B -> A -> B) (l : list A) (b : B) :
  (forall b x, f b x = g b x) -> fold_left f l b = fold_left g l b.
Proof.
  intros H. revert b. induction l as [|x l IH]; intros b; simpl; [reflexivity|].
  now rewrite H, IH.
Qed.

Lemma flat_map_option_filter {A B} (p : A -> bool) (f : A -> B) (l : list A) :
  flat_map (fun x => if p x then [f x] else []) l = map f (List.filter p l).
Proof.
  induction l as [|x l IH]; simpl; [reflexivity|].
  destruct (p x); simpl; now rewrite IH.
Qed.

Lemma flat_map_map_flat {A B C} (f : B -> C) (g : A -> list B) (l : list A) :
  flat_map (fun x => map f (g x)) l = map f (flat_map g l).
Proof.
  induction l as [|x l IH]; simpl; [reflexivity|].
  now rewrite IH, map_app.
Qed.

(** ** The party header extractor *)

Lemma get_party_names_rows_spec (names : list text) (trs : list node) :
  get_party_names_rows names trs
  = names ++ map party_name (List.filter is_party_row trs).
Proof.
  unfold get_party_names_rows.
  rewrite <- flat_map_option_filter, <- fold_left_append.
  apply fold_left_ext_eq. intros acc tr.
  unfold is_party_row, party_name, name_cell.
  destruct (find _ _ tr); simpl; [reflexivity | now rewrite app_nil_r].
Qed.

Lemma get_party_names_spec (soup : node) :
  get_party_names soup = map party_name (party_rows soup).
Proof.
  unfold get_party_names, party_rows.
  rewrite <- flat_map_map_flat.
  rewrite <- (app_nil_l (flat_map _ _)), <- fold_left_append.
  apply fold_left_ext_eq. intros acc table. apply get_party_names_rows_spec.
Qed.

(** ** The result row extractor *)

Lemma vote_td_loop_spec (tds : list node) :
  vote_td_loop tds = List.find is_votes_cell tds.
Proof.
  induction tds as [|td tds IH]; simpl; [reflexivity|].
  unfold is_votes_cell at 1. now destruct (existsb _ _).
Qed.

Lemma hlasy_rows_spec (hlasy : list text) (trs : list node) :
  fold_left hlasy_body trs hlasy
  = hlasy ++ map party_votes (List.filter is_party_row trs).
Proof.
  rewrite <- flat_map_option_filter, <- fold_left_append.
  apply fold_left_ext_eq. intros acc tr.
  unfold hlasy_body, is_party_row, party_votes, votes_cell, name_cell.
  rewrite vote_td_loop_spec.
  destruct (find _ _ tr); simpl; [|now rewrite app_nil_r].
  now destruct (List.find _ _).
Qed.

Lemma hlasy_loop_spec (soup : node) :
  hlasy_loop soup = map party_votes (party_rows soup).
Proof.
  unfold hlasy_loop, party_rows.
  rewrite <- flat_map_map_flat.
  rewrite <- (app_nil_l (flat_map _ _)), <- fold_left_append.
  apply fold_left_ext_eq. intros acc table. apply hlasy_rows_spec.
Qed.

(** ** The unit link extractor *)

(** What [find] returns is an element below the tag that passes the
    filter, and [find] returns one whenever there is one. *)
Lemma find_matches name kw (n c : node) :
  find name kw n = Some c -> matches_tag name kw c = true /\ In c (descendants n).
Proof.
  unfold find, find_all. intros H.
  assert (In c (List.filter (matches_tag name kw) (descendants n))) as Hin.
  { destruct (List.filter _ _); [discriminate|]. injection H as ->. now left. }
  apply List.filter_In in Hin. tauto.
Qed.

Lemma find_is_some name kw (n : node) :
  is_some (find name kw n) = true
  <-> exists c, In c (descendants n) /\ matches_tag name kw c = true.
Proof.
  split.
  - destruct (find name kw n) as [c|] eqn:E; [|discriminate].
    intros _. exists c. apply find_matches in E. tauto.
  - intros (c & Hin & Hm). unfold find, find_all.
    assert (In c (List.filter (matches_tag name kw) (descendants n))) as H
      by (apply List.filter_In; auto).
    now destruct (List.filter _ _).
Qed.

(** [href] is not a multi-valued attribute: [a.get('href')] is a string
    whenever it is present. *)
Lemma href_is_string (td a : node) (l : list text) :
  find (str "a") [] td = Some a -> tag_get a (str "href") <> Some (AList l).
Proof.
  intros H. apply find_matches in H as [Hm _].
  destruct a as [s | name attrs cs]; [discriminate|].
  cbn [matches_tag forallb] in Hm. rewrite andb_true_r in Hm.
  apply text_eqb_eq in Hm as ->. unfold tag_get.
  destruct (attrs !! str "href"); [|discriminate].
  change (multi_valued (str "a") (str "href")) with false. discriminate.
Qed.

Section Links.

Variable urljoin : text -> text -> text.

Lemma get_obec_links_body_spec (base_url : text) (acc : list obec_info) (row : node) :
  get_obec_links_body urljoin base_url acc row
  = acc ++ (if qualifies row then [obec_of_row urljoin base_url row] else []).
Proof.
  unfold get_obec_links_body, qualifies, obec_of_row, link_target, hyperlink,
    party_name, code_cell, name_cell.
  destruct (find (str "td") (class_ "cislo") row) as [cislo_td|]; simpl;
    [|now rewrite app_nil_r].
  destruct (find (str "td") (class_ "overflow_name") row) as [name_td|]; simpl;
    [|now rewrite app_nil_r].
  destruct (find (str "a") [] cislo_td) as [a|]; simpl; [|now rewrite app_nil_r].
  destruct (tag_get a (str "href")) as [[href|l]|]; simpl;
    try now rewrite app_nil_r.
  destruct (nonempty href); simpl; [reflexivity | now rewrite app_nil_r].
Qed.

Lemma get_obec_links_spec (soup : node) (base_url : text) :
  get_obec_links urljoin soup base_url
  = map (obec_of_row urljoin base_url)
        (List.filter qualifies (find_all (str "tr") [] soup)).
Proof.
  unfold get_obec_links.
  rewrite <- flat_map_option_filter.
  rewrite <- (app_nil_l (flat_map _ _)), <- fold_left_append.
  apply fold_left_ext_eq. intros acc row. apply get_obec_links_body_spec.
Qed.

End Links.

(** ** The tabular writer: reading back what was written *)

Abbreviation read_from r s := (fold_left reader_step s r).

Lemma not_special (c : N) :
  special c = false ->
  (c =? CR)%N = false /\ (c =? LF)%N = false /\
  (c =? quotechar)%N = false /\ (c =? delimiter)%N = false.
Proof.
  unfold special. intros H.
  repeat (apply orb_false_elim in H; destruct H as [H ?]). auto.
Qed.

(** Unquoted characters accumulate in the field. *)
Lemma read_plain (cs f : text) (fs : list text) (rs : list (list text)) :
  existsb special cs = false ->
  read_from (mkReader IN_FIELD f fs rs) cs = mkReader IN_FIELD (f ++ cs) fs rs.
Proof.
  revert f. induction cs as [|c cs IH]; intros f H; simpl in *.
  - now rewrite app_nil_r.
  - apply orb_false_elim in H as [Hc Hcs].
    destruct (not_special c Hc) as (H1 & H2 & H3 & H4).
    unfold reader_step at 2; simpl. rewrite H1, H2, H4.
    unfold add_char; simpl. rewrite (IH _ Hcs), <- app_assoc. reflexivity.
Qed.

(** Inside quotes every character accumulates, a doubled quote as one. *)
Lemma read_escaped (cs f : text) (fs : list text) (rs : list (list text)) :
  read_from (mkReader IN_QUOTED_FIELD f fs rs) (escape cs)
  = mkReader IN_QUOTED_FIELD (f ++ cs) fs rs.
Proof.
  revert f. induction cs as [|c cs IH]; intros f; simpl.
  - now rewrite app_nil_r.
  - unfold escape in IH. rewrite fold_left_app.
    destruct (c =? quotechar)%N eqn:Hq; simpl.
    + apply N.eqb_eq in Hq. subst c.
      unfold reader_step at 2 3; simpl. unfold add_char; simpl.
      rewrite IH, <- app_assoc. reflexivity.
    + unfold reader_step at 2; simpl. rewrite Hq. unfold add_char; simpl.
      rewrite IH, <- app_assoc. reflexivity.
Qed.

(** The states in which a record or a field may begin. *)
Definition starting (st : reader_state) : Prop :=
  st = START_RECORD \/ st = START_FIELD.

(** A written field followed by the delimiter is read as that field. *)
Lemma read_field_delimiter st (f : text) fs rs (rest : text) :
  starting st ->
  read_from (mkReader st [] fs rs) (csv_field f ++ delimiter :: rest)
  = read_from (mkReader START_FIELD [] (fs ++ [f]) rs) rest.
Proof.
  intros Hst. unfold csv_field. destruct (existsb special f) eqn:Hsp.
  - simpl. rewrite fold_left_app. simpl.
    assert (reader_step (mkReader st [] fs rs) quotechar
            = mkReader IN_QUOTED_FIELD [] fs rs) as ->
      by (destruct Hst as [-> | ->]; reflexivity).
    rewrite fold_left_app, read_escaped. reflexivity.
  - destruct f as [|c f]; simpl.
    + destruct Hst as [-> | ->]; reflexivity.
    + simpl in Hsp. apply orb_false_elim in Hsp as [Hc Hf].
      destruct (not_special c Hc) as (H1 & H2 & H3 & H4).
      assert (reader_step (mkReader st [] fs rs) c
              = mkReader IN_FIELD [c] fs rs) as ->.
      { destruct Hst as [-> | ->]; unfold reader_step, start_record, start_field;
          simpl; now rewrite ?H1, ?H2, ?H3, ?H4. }
      rewrite fold_left_app, (read_plain f _ _ _ Hf). reflexivity.
Qed.

(** A written field followed by the line terminator ends the record;
    at the start of a record the field must not be empty. *)
Lemma read_field_newline st (f : text) fs rs (rest : text) :
  st = START_FIELD \/ (st = START_RECORD /\ f <> []) ->
  read_from (mkReader st [] fs rs) (csv_field f ++ CR :: LF :: rest)
  = read_from (mkReader START_RECORD [] [] (rs ++ [fs ++ [f]])) rest.
Proof.
  intros Hst. unfold csv_field. destruct (existsb special f) eqn:Hsp.
  - simpl. rewrite fold_left_app. simpl.
    assert (reader_step (mkReader st [] fs rs) quotechar
            = mkReader IN_QUOTED_FIELD [] fs rs) as ->
      by (destruct Hst as [-> | [-> _]]; reflexivity).
    rewrite fold_left_app, read_escaped. reflexivity.
  - destruct f as [|c f]; simpl.
    + destruct Hst as [-> | [_ Hne]]; [reflexivity | congruence].
    + simpl in Hsp. apply orb_false_elim in Hsp as [Hc Hf].
      destruct (not_special c Hc) as (H1 & H2 & H3 & H4).
      assert (reader_step (mkReader st [] fs rs) c
              = mkReader IN_FIELD [c] fs rs) as ->.
      { destruct Hst as [-> | [-> _]]; unfold reader_step, start_record, start_field;
          simpl; now rewrite ?H1, ?H2, ?H3, ?H4. }
      rewrite fold_left_app, (read_plain f _ _ _ Hf). reflexivity.
Qed.

Lemma join_cons2 (sep x y : text) (l : list text) :
  join sep (x :: y :: l) = x ++ sep ++ join sep (y :: l).
Proof. reflexivity. Qed.

(** The fields of a record, joined by the delimiter and terminated, are
    read as that record. *)
Lemma read_fields st (f : text) (row : list text) fs rs (rest : text) :
  st = START_FIELD \/ (st = START_RECORD /\ (f <> [] \/ row <> [])) ->
  read_from (mkReader st [] fs rs)
            (join [delimiter] (map csv_field (f :: row)) ++ CR :: LF :: rest)
  = read_from (mkReader START_RECORD [] [] (rs ++ [fs ++ f :: row])) rest.
Proof.
  revert st f fs. induction row as [|g row IH]; intros st f fs Hst.
  - simpl. apply read_field_newline. destruct Hst as [-> | [-> [H | H]]]; auto.
  - cbn [map]. rewrite join_cons2, <- !app_assoc.
    etransitivity.
    { apply read_field_delimiter. destruct Hst as [-> | [-> _]]; [right | left]; reflexivity. }
    etransitivity.
    { apply (IH START_FIELD g). now left. }
    rewrite <- app_assoc. reflexivity.
Qed.

Lemma read_writerow (row : list text) rs (rest : text) :
  read_from (mkReader START_RECORD [] [] rs) (writerow row ++ rest)
  = read_from (mkReader START_RECORD [] [] (rs ++ [row])) rest.
Proof.
  unfold writerow.
  destruct row as [|f row].
  - reflexivity.
  - destruct f as [|c f]; [destruct row as [|g row]|].
    + reflexivity.
    + rewrite <- app_assoc. simpl ([CR; LF] ++ rest).
      rewrite read_fields by (right; split; [reflexivity | right; discriminate]).
      reflexivity.
    + rewrite <- app_assoc. simpl ([CR; LF] ++ rest).
      rewrite read_fields by (right; split; [reflexivity | left; discriminate]).
      reflexivity.
Qed.

Lemma read_writerows (rows : list (list text)) rs :
  read_from (mkReader START_RECORD [] [] rs) (writerows rows)
  = mkReader START_RECORD [] [] (rs ++ rows).
Proof.
  revert rs. induction rows as [|row rows IH]; intros rs; simpl.
  - now rewrite app_nil_r.
  - rewrite read_writerow, IH, <- app_assoc. reflexivity.
Qed.

(** What [csv.writer] writes, [csv.reader] reads back. *)
Lemma csv_roundtrip (rows : list (list text)) :
  csv_read (writerows rows) = rows.
Proof. unfold csv_read. rewrite read_writerows. reflexivity. Qed.

(** ** Runs of the script *)

Ltac run_monad :=
  unfold mbind, M_bind, mret, M_ret, raise, print, http_get, write_file; simpl.

Section Run.

Context {World : Type}.
Variable requests_get : text -> World -> response * World.
Variable writable : text -> bool.
Variable urljoin : text -> text -> text.

Lemma valid_args_length (args : list text) : valid_args args -> length args = 3.
Proof. intros (prog & url & f & rest & stem & -> & _). reflexivity. Qed.

(** The validator either accepts a valid argument list and prints
    nothing, or rejects an invalid one with one diagnostic. *)
Lemma validate_arguments_spec (args : list text) (s : state World) :
  (valid_args args /\ validate_arguments World args s = (Ok true, s))
  \/ (~ valid_args args /\
      exists m, is_diagnostic m = true /\ m <> MsgNoObce /\
        validate_arguments World args s
        = (Ok false, mkState World (st_world s) (st_net s) (st_out s ++ [m]) (st_fs s))).
Proof.
  unfold validate_arguments. fold url_prefix.
  destruct (length args =? 3) eqn:Hlen; cbn [negb].
  - apply Nat.eqb_eq in Hlen.
    destruct args as [|prog [|url [|f [|]]]]; try discriminate. cbn [nth].
    destruct (startswith url url_prefix) eqn:Hurl; cbn [negb].
    + destruct (endswith f (str ".csv")) eqn:Hf; cbn [negb].
      * left. split; [|reflexivity].
        apply startswith_spec in Hurl as [rest ->].
        apply endswith_spec in Hf as [stem ->].
        exists prog, (url_prefix ++ rest), (stem ++ str ".csv"), rest, stem. auto.
      * right. split.
        { intros (? & ? & ? & ? & stem & [= <- <- <-] & _ & Hs).
          assert (endswith f (str ".csv") = true) by (apply endswith_spec; eauto).
          congruence. }
        exists MsgBadFile. repeat split. discriminate.
    + right. split.
      { intros (? & ? & ? & rest & ? & [= <- <- <-] & Hu & _).
        assert (startswith url url_prefix = true) by (apply startswith_spec; eauto).
        congruence. }
      exists MsgBadUrl. repeat split. discriminate.
  - right. split.
    { intros H%valid_args_length. rewrite H in Hlen. discriminate. }
    exists MsgArgCount. repeat split. discriminate.
Qed.

Lemma get_soup_eq (url : text) (s : state World) :
  get_soup World requests_get url s
  = (soup_result (fst (requests_get url (st_world s))),
     mkState World (snd (requests_get url (st_world s)))
             (st_net s ++ [(url, fst (requests_get url (st_world s)))])
             (st_out s) (st_fs s)).
Proof.
  unfold get_soup. run_monad.
  destruct (requests_get url (st_world s)) as [[|code page] w]; simpl; [reflexivity|].
  now destruct (is_error_status code).
Qed.

Lemma scalar_cell_eq (soup : node) (h : string) (s : state World) :
  scalar_cell World soup h s
  = (match scalar_value soup h with
     | Some v => Ok v
     | None => Raise AttributeError
     end, s).
Proof.
  unfold scalar_cell, scalar_value.
  now destruct (find (str "td") (headers_ h) soup).
Qed.

Lemma parse_obec_data_eq (url : text) (s : state World) :
  parse_obec_data World requests_get url s
  = (parse_result (fst (requests_get url (st_world s))),
     mkState World (snd (requests_get url (st_world s)))
             (st_net s ++ [(url, fst (requests_get url (st_world s)))])
             (st_out s) (st_fs s)).
Proof.
  unfold parse_obec_data. unfold mbind at 1, M_bind at 1.
  rewrite get_soup_eq.
  destruct (requests_get url (st_world s)) as [[|code page] w];
    cbn [fst snd soup_result parse_result]; [reflexivity|].
  destruct (is_error_status code); [reflexivity|].
  unfold has_scalars, page_values. rewrite <- hlasy_loop_spec.
  unfold mbind at 1, M_bind at 1. rewrite scalar_cell_eq.
  destruct (scalar_value page "sa2"); cbn [is_some andb default]; [|reflexivity].
  unfold mbind at 1, M_bind at 1. rewrite scalar_cell_eq.
  destruct (scalar_value page "sa3"); cbn [is_some andb default]; [|reflexivity].
  unfold mbind at 1, M_bind at 1. rewrite scalar_cell_eq.
  destruct (scalar_value page "sa6"); cbn [is_some andb default]; reflexivity.
Qed.

Lemma parse_result_ok (r : response) (vals : list text) :
  parse_result r = Ok vals ->
  exists status page, r = Response status page /\ is_error_status status = false
                      /\ has_scalars page = true /\ vals = page_values page.
Proof.
  destruct r as [|status page]; simpl; [discriminate|].
  destruct (is_error_status status) eqn:Hs; [discriminate|].
  destruct (has_scalars page) eqn:Hp; [|discriminate].
  intros [= <-]. eauto 6.
Qed.

Lemma parse_result_raise (r : response) (e : exn) :
  parse_result r = Raise e -> parse_fails r = true.
Proof.
  destruct r as [|status page]; simpl; [reflexivity|].
  destruct (is_error_status status); [reflexivity|].
  destruct (has_scalars page); [discriminate | reflexivity].
Qed.

Lemma soup_result_ok (r : response) (page : node) :
  soup_result r = Ok page ->
  exists status, r = Response status page /\ is_error_status status = false.
Proof.
  destruct r as [|status p]; simpl; [discriminate|].
  destruct (is_error_status status) eqn:Hs; [discriminate|].
  intros [= <-]. eauto.
Qed.

Lemma soup_result_raise (r : response) (e : exn) :
  soup_result r = Raise e -> fetch_failed r = true.
Proof.
  destruct r as [|status p]; simpl; [reflexivity|].
  now destruct (is_error_status status).
Qed.

(** The municipality loop: it touches no file; it either gives one row
    per municipality or stops at the first failing request. *)
Lemma main_loop_spec (infos : list obec_info) (n i : nat)
    (data : list (list text)) (s : state World) r s' :
  main_loop World requests_get n i infos data s = (r, s') ->
  st_fs s' = st_fs s /\
  exists net, st_net s' = st_net s ++ net /\
    ((exists rows, r = Ok (data ++ rows) /\ rows_of infos net rows
                   /\ st_out s' = st_out s ++ progress_lines n i infos)
     \/ (exists e, r = Raise e /\ loop_fails e infos net)).
Proof.
  revert i data s. induction infos as [|[[link code] name] infos IH]; intros i data s H.
  - injection H as <- <-. split; [reflexivity|]. exists []. rewrite !app_nil_r.
    split; [reflexivity|]. left. exists []. rewrite app_nil_r. repeat split. constructor.
  - cbn [main_loop] in H. unfold mbind, M_bind, print in H.
    rewrite parse_obec_data_eq in H. cbn [st_world st_net st_out st_fs] in H.
    destruct (requests_get link (st_world s)) as [resp w]. cbn [fst snd] in H.
    destruct (parse_result resp) as [vals|e] eqn:Hr.
    + apply parse_result_ok in Hr as (status & page & -> & Hs & Hp & ->).
      apply IH in H as (Hfs & net & Hnet & H). cbn [st_fs st_net st_out] in *.
      split; [exact Hfs|].
      exists ((link, Response status page) :: net). split.
      { rewrite Hnet. now rewrite <- app_assoc. }
      destruct H as [(rows & -> & Hrows & Hout) | (e & -> & Hfail)].
      * left. exists ((code :: name :: page_values page) :: rows).
        rewrite Hout. cbn [progress_lines].
        rewrite <- !app_assoc. repeat split. now constructor.
      * right. exists e. split; [reflexivity|]. now constructor.
    + injection H as <- <-. cbn [st_fs st_net]. split; [reflexivity|].
      exists [(link, resp)]. split; [reflexivity|].
      right. exists e. split; [reflexivity|].
      now constructor.
Qed.

(** Every run of [main] is of one of the kinds of [main_outcome]. *)
Lemma main_spec (argv : list text) (w : World) (fs : gmap text text) r s' :
  main World requests_get writable urljoin argv (initial World w fs) = (r, s') ->
  main_outcome urljoin argv fs r (st_net s') (st_out s') (st_fs s').
Proof.
  intros H. unfold main in H. unfold mbind at 1, M_bind at 1 in H.
  destruct (validate_arguments_spec argv (initial World w fs))
    as [[Hv Heq] | [Hnv (m & Hd & Hne & Heq)]]; rewrite Heq in H; cbn [negb] in H.
  2:{ injection H as <- <-. cbn. now apply run_rejected. }
  destruct Hv as (prog & url & f & rest & stem & -> & _ & _). cbn [nth] in H.
  unfold mbind, M_bind, print in H. rewrite get_soup_eq in H.
  cbn [initial st_world st_net st_out st_fs app] in H.
  destruct (requests_get url w) as [resp w1]. cbn [fst snd] in H.
  destruct (soup_result resp) as [page|e] eqn:Hresp.
  2:{ injection H as <- <-. cbn. eapply run_unit_failed; eauto. }
  apply soup_result_ok in Hresp as (status & -> & Hs).
  destruct (get_obec_links urljoin page url) as [|[[link code] name] infos] eqn:Hl.
  { injection H as <- <-. cbn. eapply run_no_obce; eauto. }
  rewrite get_soup_eq in H. cbn [st_world st_net st_out st_fs app] in H.
  destruct (requests_get link w1) as [resp1 w2]. cbn [fst snd] in H.
  destruct (soup_result resp1) as [first_page|e] eqn:Hresp1.
  2:{ injection H as <- <-. cbn. eapply run_first_failed; eauto. }
  apply soup_result_ok in Hresp1 as (status1 & -> & Hs1).
  match type of H with context [main_loop ?a ?b ?c ?d ?e ?g ?h] =>
    destruct (main_loop a b c d e g h) as [r2 s2] eqn:Hloop end.
  apply main_loop_spec in Hloop as (Hfs & net & Hnet & Hloop).
  cbn [st_net st_out st_fs app] in *.
  destruct Hloop as [(rows & -> & Hrows & Hout) | (e & -> & Hfail)].
  - unfold save_to_csv, write_file in H. destruct (writable f).
    + injection H as <- <-. cbn [st_net st_out st_fs].
      rewrite Hnet, Hout, Hfs. cbn [app length].
      exact (run_written urljoin _ fs prog url f status page link code name infos
               status1 first_page net rows eq_refl Hs Hl Hs1 Hrows).
    + injection H as <- <-. rewrite Hnet, Hfs. eapply run_write_failed; eauto.
  - injection H as <- <-. rewrite Hnet, Hfs. eapply run_loop_failed; eauto.
Qed.

End Run.

(** ** Structure of a page *)

Lemma filter_map_swap {A B} (p : B -> bool) (f : A -> B) (l : list A) :
  List.filter p (map f l) = map f (List.filter (fun x => p (f x)) l).
Proof.
  induction l as [|x l IH]; simpl; [reflexivity|].
  destruct (p (f x)); simpl; now rewrite IH.
Qed.

Lemma descendants_shape (n : node) :
  descendants (shape n) = map shape (descendants n).
Proof.
  induction n as [s | name attrs cs IH] using node_tree_ind; [reflexivity|].
  simpl. induction IH as [|c cs Hc _ IHcs]; simpl; [reflexivity|].
  now rewrite map_app, Hc, IHcs.
Qed.

Lemma matches_tag_shape name kw (n : node) :
  matches_tag name kw (shape n) = matches_tag name kw n.
Proof. destruct n; reflexivity. Qed.

Lemma find_all_shape name kw (n : node) :
  find_all name kw (shape n) = map shape (find_all name kw n).
Proof.
  unfold find_all. rewrite descendants_shape, filter_map_swap.
  f_equal. apply List.filter_ext. intros c. apply matches_tag_shape.
Qed.

Lemma find_shape name kw (n : node) :
  find name kw (shape n) = option_map shape (find name kw n).
Proof.
  unfold find. rewrite find_all_shape. now destruct (find_all name kw n).
Qed.

Lemma is_party_row_shape (tr : node) : is_party_row (shape tr) = is_party_row tr.
Proof.
  unfold is_party_row, name_cell. rewrite find_shape.
  now destruct (find _ _ tr).
Qed.

Lemma party_rows_shape (soup : node) :
  party_rows (shape soup) = map shape (party_rows soup).
Proof.
  unfold party_rows. rewrite find_all_shape, flat_map_concat_map, map_map.
  rewrite flat_map_concat_map, concat_map, map_map.
  f_equal. apply map_ext. intros table.
  rewrite find_all_shape, filter_map_swap.
  f_equal. apply List.filter_ext. intros tr. apply is_party_row_shape.
Qed.

Lemma same_shape_party_rows (p q : node) :
  shape p = shape q -> length (party_rows p) = length (party_rows q).
Proof.
  intros H.
  rewrite <- (length_map shape (party_rows p)), <- (length_map shape (party_rows q)).
  now rewrite <- !party_rows_shape, H.
Qed.

(** ** Pages of name tables *)





(** ** The claims on the extractors *)

Lemma no_votes_cell_votes (tr : node) : no_votes_cell tr -> party_votes tr = [].
Proof.
  intros H. unfold party_votes, votes_cell.
  destruct (List.find _ _) as [td|] eqn:E; [exfalso | reflexivity].
  apply List.find_some in E as [Hin Hv].
  apply List.existsb_exists in Hv as (h & Hh & He).
  apply endswith_spec in He as [p ->]. now apply (H td _ Hin Hh p).
Qed.

Section ExtractorClaims.

Context {World : Type}.
Variable requests_get : text -> World -> response * World.

(** C2: on a municipality page that was fetched and has its scalar
    cells, [parse_obec_data] returns the three counters followed by a
    vote-count segment with one entry per party row of that page (the
    rows with an overflow-name cell, over all tables), in order; the
    entry of a party row is its vote count, and the empty string when
    the row has no [cislo] cell with a [headers] token ending in [sa2]. *)
Theorem parse_obec_data_vote_segment (url : text) (s : state World)
    (status : Z) (page : node) (w' : World) :
  requests_get url (st_world s) = (Response status page, w') ->
  is_error_status status = false ->
  has_scalars page = true ->
  exists volici obalky platne hlasy,
    fst (parse_obec_data World requests_get url s)
    = Ok ([volici; obalky; platne] ++ hlasy)
    /\ length hlasy = length (party_rows page)
    /\ forall i tr, nth_error (party_rows page) i = Some tr ->
         nth_error hlasy i = Some (party_votes tr)
         /\ (no_votes_cell tr -> nth_error hlasy i = Some []).
Proof.
  intros Hget Hs Hp. rewrite parse_obec_data_eq, Hget. cbn [fst parse_result].
  rewrite Hs, Hp. unfold page_values.
  eexists _, _, _, _. split; [reflexivity|]. split; [apply length_map|].
  intros i tr Hi.
  assert (nth_error (map party_votes (party_rows page)) i = Some (party_votes tr)) as Hv
    by now apply map_nth_error.
  split; [exact Hv|]. intros Hno. now rewrite Hv, no_votes_cell_votes.
Qed.

(** C10: the party header extractor and the party loop of
    [parse_obec_data] give lists of the same length on every page, one
    entry per party row; so a row parsed from a page of the same
    structure as the first municipality's page has as many columns as
    the header. *)
Theorem party_names_and_votes_aligned :
  (forall p : node, length (get_party_names p) = length (hlasy_loop p))
  /\ (forall (first_page page : node) (url code name : text) (s s' : state World)
             (status : Z) (vals : list text),
        shape page = shape first_page ->
        fst (requests_get url (st_world s)) = Response status page ->
        parse_obec_data World requests_get url s = (Ok vals, s') ->
        length ([code; name] ++ vals)
        = length (fixed_header ++ get_party_names first_page)).
Proof.
  split.
  - intros p. now rewrite get_party_names_spec, hlasy_loop_spec, !length_map.
  - intros first_page page url code name s s' status vals Hshape Hget Hparse.
    rewrite parse_obec_data_eq, Hget in Hparse.
    apply (f_equal fst) in Hparse. cbn [fst] in Hparse.
    apply parse_result_ok in Hparse as (st & pg & [= <- <-] & _ & _ & ->).
    unfold page_values. rewrite get_party_names_spec.
    rewrite !length_app, !length_map, (same_shape_party_rows _ _ Hshape).
    reflexivity.
Qed.

(** C5: the validator accepts exactly the argument lists with two
    arguments after the program name, the first starting with the
    territorial-unit prefix and the second ending in [.csv]; it then
    prints nothing, and otherwise it prints one diagnostic and returns
    [False]. *)
Theorem validate_arguments_accepts_iff (args : list text) (s : state World) :
  (fst (validate_arguments World args s) = Ok true <-> valid_args args)
  /\ (valid_args args -> snd (validate_arguments World args s) = s)
  /\ (~ valid_args args ->
      fst (validate_arguments World args s) = Ok false
      /\ exists m, is_diagnostic m = true
           /\ st_out (snd (validate_arguments World args s)) = st_out s ++ [m]).
Proof.
  destruct (validate_arguments_spec args s)
    as [[Hv Heq] | [Hnv (m & Hd & _ & Heq)]]; rewrite Heq; cbn [fst snd].
  - split; [tauto|]. split; [reflexivity | tauto].
  - split; [split; [discriminate | tauto]|]. split; [tauto|].
    intros _. split; [reflexivity|]. now exists m.
Qed.


End ExtractorClaims.


Section LinkClaims.

Variable urljoin : text -> text -> text.


End LinkClaims.

(** ** The claims on whole runs *)

Lemma rows_of_no_failure infos net rows :
  rows_of infos net rows ->
  Forall (fun request => parse_fails (snd request) = false) net.
Proof.
  induction 1 as [|link code name infos status page net rows Hs Hp _ IH]; constructor.
  - cbn. now rewrite Hs, Hp.
  - exact IH.
Qed.

Lemma rows_of_length infos net rows :
  rows_of infos net rows -> length infos = length rows.
Proof. induction 1; cbn; congruence. Qed.

Lemma fetch_failed_parse_fails (r : response) :
  parse_fails r = false -> fetch_failed r = false.
Proof.
  destruct r as [|status page]; cbn; [discriminate|].
  now destruct (is_error_status status).
Qed.

Lemma soup_error_parse_error (r : response) (e : exn) :
  soup_result r = Raise e -> parse_result r = Raise e.
Proof.
  destruct r as [|status page]; cbn; [now intros [= <-]|].
  destruct (is_error_status status); [now intros [= <-] | discriminate].
Qed.

Lemma loop_fails_last e infos net :
  loop_fails e infos net ->
  exists url r, last net = Some (url, r) /\ parse_result r = Raise e.
Proof.
  induction 1 as [link code name infos r Hr
                 | link code name infos status page net _ _ Hfail (url & r & Hlast & Hr)].
  - now exists link, r.
  - exists url, r. split; [|exact Hr].
    destruct net; [discriminate | exact Hlast].
Qed.

Lemma last_cons_cons {A} (x y : A) (l : list A) : last (x :: y :: l) = last (y :: l).
Proof. reflexivity. Qed.

Lemma rows_of_segments infos net rows :
  rows_of infos net rows ->
  Forall2 (fun request row =>
             exists status page,
               snd request = Response status page
               /\ vote_segment row = map party_votes (party_rows page))
          net rows.
Proof.
  induction 1 as [|link code name infos status page net rows _ _ _ IH]; constructor.
  - now exists status, page.
  - exact IH.
Qed.

Section RunClaims.

Context {World : Type}.
Variable requests_get : text -> World -> response * World.
Variable writable : text -> bool.
Variable urljoin : text -> text -> text.

Local Abbreviation run argv w fs :=
  (main World requests_get writable urljoin argv (initial World w fs)).

(** A successful run went through the whole of [main]. *)
Lemma successful_run_inv (argv : list text) (w : World) (fs : gmap text text) :
  successful argv (run argv w fs) ->
  exists prog url output_file status page link code name infos status1 first_page net rows,
    argv = [prog; url; output_file]
    /\ is_error_status status1 = false
    /\ get_obec_links urljoin page url = (link, code, name) :: infos
    /\ st_net (snd (run argv w fs))
       = (url, Response status page) :: (link, Response status1 first_page) :: net
    /\ rows_of ((link, code, name) :: infos) net rows
    /\ st_fs (snd (run argv w fs))
       = <[output_file := writerows ((fixed_header ++ get_party_names first_page) :: rows)]> fs.
Proof.
  destruct (run argv w fs) as [r s'] eqn:Hrun. intros [Hok Hlast]. cbn [fst snd] in *.
  apply main_spec in Hrun.
  destruct Hrun as [m _ Hd _ | | prog url f status page -> | | | |
                    prog url f status page link code name infos status1 first_page
                      net rows -> Hs Hl Hs1 Hrows]; try discriminate.
  - injection Hlast as ->. discriminate.
  - exists prog, url, f, status, page, link, code, name, infos, status1, first_page, net, rows.
    auto 7.
Qed.

(** C6: the file of a successful run holds the header [code, location,
    registered, envelopes, valid] followed by the party names of the
    first municipality's page, then one row per municipality, in the
    order of the links: code, name and the values parsed from the page
    fetched for that municipality. *)
Theorem successful_run_table (argv : list text) (w : World) (fs : gmap text text) :
  successful argv (run argv w fs) ->
  exists prog url output_file status page link code name infos status1 first_page net rows,
    argv = [prog; url; output_file]
    /\ get_obec_links urljoin page url = (link, code, name) :: infos
    /\ st_net (snd (run argv w fs))
       = (url, Response status page) :: (link, Response status1 first_page) :: net
    /\ rows_of ((link, code, name) :: infos) net rows
    /\ length rows = length (get_obec_links urljoin page url)
    /\ csv_read <$> st_fs (snd (run argv w fs)) !! output_file
       = Some ((map str ["code"; "location"; "registered"; "envelopes"; "valid"]
                ++ get_party_names first_page) :: rows).
Proof.
  intros Hrun.
  destruct (successful_run_inv argv w fs Hrun)
    as (prog & url & f & status & page & link & code & name & infos & status1
        & first_page & net & rows & -> & _ & Hl & Hnet & Hrows & Hfs).
  exists prog, url, f, status, page, link, code, name, infos, status1, first_page, net, rows.
  rewrite Hfs, lookup_insert_eq.
  repeat split; try assumption.
  { rewrite Hl. symmetry. eapply rows_of_length; eauto. }
  change (Some (csv_read (writerows ((fixed_header ++ get_party_names first_page) :: rows)))
          = Some ((fixed_header ++ get_party_names first_page) :: rows)).
  now rewrite csv_roundtrip.
Qed.

(** C1, as the code has it: in a successful run the vote-count segment
    of every row has one entry per party row of the page fetched for
    that municipality -- the vote count, or the empty string for a party
    row without votes cell -- so it is as long as the party list of that
    page, while the party list of the header is that of the page first
    fetched for the first municipality. *)
Theorem vote_segment_follows_own_page (argv : list text) (w : World)
    (fs : gmap text text) :
  successful argv (run argv w fs) ->
  exists header rows unit_request first_request first_page net,
    csv_read <$> st_fs (snd (run argv w fs)) !! nth 2 argv [] = Some (header :: rows)
    /\ st_net (snd (run argv w fs)) = unit_request :: first_request :: net
    /\ soup_result (snd first_request) = Ok first_page
    /\ party_list header = get_party_names first_page
    /\ Forall2 (fun request row =>
                  exists status page,
                    snd request = Response status page
                    /\ vote_segment row = map party_votes (party_rows page)
                    /\ length (vote_segment row) = length (get_party_names page)
                    /\ (length (get_party_names page) = length (get_party_names first_page)
                        -> length (vote_segment row) = length (party_list header))
                    /\ forall i tr, nth_error (party_rows page) i = Some tr ->
                         no_votes_cell tr -> nth_error (vote_segment row) i = Some [])
               net rows.
Proof.
  intros Hrun.
  destruct (successful_run_inv argv w fs Hrun)
    as (prog & url & f & status & page & link & code & name & infos & status1
        & first_page & net & rows & -> & Hs1 & Hl & Hnet & Hrows & Hfs).
  exists (fixed_header ++ get_party_names first_page), rows,
    (url, Response status page), (link, Response status1 first_page), first_page, net.
  rewrite Hfs. cbn [nth]. rewrite lookup_insert_eq.
  split.
  { change (Some (csv_read (writerows ((fixed_header ++ get_party_names first_page) :: rows)))
            = Some ((fixed_header ++ get_party_names first_page) :: rows)).
    now rewrite csv_roundtrip. }
  split; [exact Hnet|]. split; [cbn; now rewrite Hs1|]. split; [reflexivity|].
  eapply Forall2_impl; [apply (rows_of_segments _ _ _ Hrows)|].
  intros request row (st & pg & Hreq & Hseg). exists st, pg.
  split; [exact Hreq|]. split; [exact Hseg|].
  assert (length (vote_segment row) = length (get_party_names pg)) as Hlen
    by now rewrite Hseg, get_party_names_spec, !length_map.
  split; [exact Hlen|].
  split.
  { intros He.
    change (party_list (fixed_header ++ get_party_names first_page))
      with (get_party_names first_page).
    congruence. }
  intros i tr Hi Hno. rewrite Hseg, (map_nth_error _ _ _ Hi).
  now rewrite no_votes_cell_votes.
Qed.

(** C7: when a request of the run fails, or a page fetched for a
    municipality row lacks one of the cells [sa2], [sa3], [sa6], the run
    ends with the exception of that request, which is the last one made,
    and the files are as they were: nothing is written. *)
Theorem failure_propagates_no_output (argv : list text) (w : World)
    (fs : gmap text text) :
  Exists (fun request => fetch_failed (snd request) = true)
         (st_net (snd (run argv w fs)))
  \/ Exists (fun request => parse_fails (snd request) = true)
            (skipn 2 (st_net (snd (run argv w fs)))) ->
  (exists e url r,
      fst (run argv w fs) = Raise e
      /\ last (st_net (snd (run argv w fs))) = Some (url, r)
      /\ parse_result r = Raise e)
  /\ st_fs (snd (run argv w fs)) = fs.
Proof.
  destruct (run argv w fs) as [r s'] eqn:Hrun. cbn [fst snd].
  apply main_spec in Hrun. intros Hbad.
  assert (forall net : list (text * response),
             Forall (fun request => parse_fails (snd request) = false) net ->
             ~ Exists (fun request => fetch_failed (snd request) = true) net) as Hgood.
  { intros net Hall Hex. apply List.Exists_exists in Hex as (x & Hin & Hx).
    rewrite List.Forall_forall in Hall. apply Hall, fetch_failed_parse_fails in Hin.
    congruence. }
  assert (forall net : list (text * response),
             Forall (fun request => parse_fails (snd request) = false) net ->
             ~ Exists (fun request => parse_fails (snd request) = true) net) as Hgood'.
  { intros net Hall Hex. apply List.Exists_exists in Hex as (x & Hin & Hx).
    rewrite List.Forall_forall in Hall. apply Hall in Hin. congruence. }
  destruct Hrun as [m _ _ _
                   | prog url f r0 e -> Hr0
                   | prog url f status page -> Hs Hl
                   | prog url f status page link code name infos r0 e -> Hs Hl Hr0
                   | prog url f status page link code name infos status1 first_page
                       net out e -> Hs Hl Hs1 Hfail
                   | prog url f status page link code name infos status1 first_page
                       net rows out -> Hs Hl Hs1 Hrows
                   | prog url f status page link code name infos status1 first_page
                       net rows -> Hs Hl Hs1 Hrows].
  - exfalso. destruct Hbad as [H | H]; inversion H.
  - split; [|reflexivity]. exists e, url, r0. repeat split.
    now apply soup_error_parse_error.
  - exfalso. destruct Hbad as [H | H]; [|inversion H].
    apply Exists_cons in H as [H | H]; [cbn in H; congruence | inversion H].
  - split; [|reflexivity]. exists e, link, r0. repeat split.
    now apply soup_error_parse_error.
  - split; [|reflexivity].
    destruct (loop_fails_last _ _ _ Hfail) as (u & r0 & Hlast & Hr0).
    exists e, u, r0. repeat split; [|exact Hr0].
    destruct net; [discriminate | exact Hlast].
  - exfalso. apply rows_of_no_failure in Hrows.
    destruct Hbad as [H | H]; [|now apply (Hgood' net)].
    apply Exists_cons in H as [H | H]; [cbn in H; congruence|].
    apply Exists_cons in H as [H | H]; [cbn in H; congruence|].
    now apply (Hgood net).
  - exfalso. apply rows_of_no_failure in Hrows.
    destruct Hbad as [H | H]; [|now apply (Hgood' net)].
    apply Exists_cons in H as [H | H]; [cbn in H; congruence|].
    apply Exists_cons in H as [H | H]; [cbn in H; congruence|].
    now apply (Hgood net).
Qed.

(** C8: when the territorial-unit page has no qualifying row, the run
    prints the diagnostic and returns normally; the unit page is the only
    page fetched and the files are as they were. *)
Theorem no_municipalities_no_output (argv : list text) (w w' : World)
    (fs : gmap text text) (status : Z) (page : node) :
  valid_args argv ->
  requests_get (nth 1 argv []) w = (Response status page, w') ->
  is_error_status status = false ->
  List.filter qualifies (find_all (str "tr") [] page) = [] ->
  run argv w fs
  = (Ok tt, mkState World w' [(nth 1 argv [], Response status page)]
                    [MsgLoadingMain; MsgNoObce] fs)
  /\ is_diagnostic MsgNoObce = true.
Proof.
  intros Hv Hget Hs Hnone. split; [|reflexivity].
  unfold main. unfold mbind at 1, M_bind at 1.
  destruct (validate_arguments_spec argv (initial World w fs))
    as [[_ Heq] | [Hnv _]]; [|contradiction].
  rewrite Heq. cbn [negb].
  unfold mbind, M_bind, print. rewrite get_soup_eq.
  cbn [initial st_world st_net st_out st_fs app]. rewrite Hget. cbn [fst snd soup_result].
  rewrite Hs, get_obec_links_spec, Hnone. reflexivity.
Qed.

End RunClaims.

(** ** The properties on the sample pages *)

Lemma valid_args_intro (args : list text) :
  (length args =? 3) && startswith (nth 1 args []) url_prefix
  && endswith (nth 2 args []) (str ".csv") = true ->
  valid_args args.
Proof.
  intros H. apply andb_true_iff in H as [H Hf]. apply andb_true_iff in H as [Hlen Hu].
  apply Nat.eqb_eq in Hlen.
  destruct args as [|prog [|url [|f [|]]]]; try discriminate. cbn [nth] in *.
  apply startswith_spec in Hu as [rest ->]. apply endswith_spec in Hf as [stem ->].
  now exists prog, (url_prefix ++ rest), (stem ++ str ".csv"), rest, stem.
Defined.

(** The end-to-end scenario of the specification. *)
Example end_to_end_scenario :
  Sample.table_written (Sample.run Sample.site_ok)
  = Some [map str ["code"; "location"; "registered"; "envelopes"; "valid";
                   "Strana X"; "Strana Y"];
          map str ["500054"; "Querfurt"; "1000"; "800"; "790"; "400"; "390"];
          map str ["500062"; "Beispiel"; "2000"; "1500"; "1480"; "700"; "780"]].
Proof. vm_compute. reflexivity. Qed.

(** The malformed-row scenario: a party row without votes cell. *)
Example malformed_row_scenario :
  Sample.table_written (Sample.run Sample.site_no_votes)
  = Some [map str ["code"; "location"; "registered"; "envelopes"; "valid";
                   "Strana X"; "Strana Y"];
          map str ["500054"; "Querfurt"; "1000"; "800"; "790"; "400"; "390"];
          map str ["500062"; "Beispiel"; "2000"; "1500"; "1480"; "700"; ""]].
Proof. vm_compute. reflexivity. Qed.

(** Two tables of three names give six names, table after table. *)
Example two_tables_of_three :
  get_party_names
    (Sample.names_page [map str ["A"; "B"; "C"]; map str ["D"; " B "; "F"]])
  = map str ["A"; "B"; "C"; "D"; "B"; "F"].
Proof. vm_compute. reflexivity. Qed.

(** C1 fails as stated: the page of the second municipality lists one
    party, the header two; the row of that municipality has one vote
    count and no placeholder. *)
Lemma shorter_party_table_shorter_row :
  successful Sample.argv (Sample.run Sample.site_one_party)
  /\ exists header row_A row_B,
       Sample.table_written (Sample.run Sample.site_one_party)
       = Some [header; row_A; row_B]
       /\ party_list header = get_party_names Sample.page_A
       /\ length (party_rows Sample.page_B_one_party) < length (party_list header)
       /\ length (vote_segment row_B) < length (party_list header)
       /\ vote_segment row_B = [str "700"].
Proof.
  split; [split; vm_compute; reflexivity|].
  eexists _, _, _. split; [vm_compute; reflexivity|].
  split; [vm_compute; reflexivity|].
  split; vm_compute; [lia|]. split; [lia | reflexivity].
Qed.

Lemma vote_segment_follows_own_page_witness :
  successful Sample.argv (Sample.run Sample.site_one_party)
  /\ exists header rows unit_request first_request first_page net,
      csv_read <$> st_fs (snd (Sample.run Sample.site_one_party)) !! nth 2 Sample.argv []
      = Some (header :: rows)
      /\ st_net (snd (Sample.run Sample.site_one_party)) = unit_request :: first_request :: net
      /\ soup_result (snd first_request) = Ok first_page
      /\ party_list header = get_party_names first_page
      /\ Forall2 (fun request row =>
                    exists status page,
                      snd request = Response status page
                      /\ vote_segment row = map party_votes (party_rows page)
                      /\ length (vote_segment row) = length (get_party_names page)
                      /\ (length (get_party_names page) = length (get_party_names first_page)
                          -> length (vote_segment row) = length (party_list header))
                      /\ forall i tr, nth_error (party_rows page) i = Some tr ->
                           no_votes_cell tr -> nth_error (vote_segment row) i = Some [])
                 net rows.
Proof.
  assert (successful Sample.argv (Sample.run Sample.site_one_party)) as H
    by (split; vm_compute; reflexivity).
  split; [exact H|].
  exact (vote_segment_follows_own_page (Sample.serve Sample.site_one_party)
           (fun _ => true) Sample.resolve Sample.argv tt ∅ H).
Defined.

Lemma parse_obec_data_vote_segment_witness :
  Sample.serve Sample.site_no_votes Sample.url_B tt
  = (Response 200 Sample.page_B_no_votes, tt)
  /\ is_error_status 200 = false
  /\ has_scalars Sample.page_B_no_votes = true
  /\ exists volici obalky platne hlasy,
      fst (parse_obec_data unit (Sample.serve Sample.site_no_votes) Sample.url_B
             (initial unit tt ∅))
      = Ok ([volici; obalky; platne] ++ hlasy)
      /\ length hlasy = length (party_rows Sample.page_B_no_votes)
      /\ forall i tr, nth_error (party_rows Sample.page_B_no_votes) i = Some tr ->
           nth_error hlasy i = Some (party_votes tr)
           /\ (no_votes_cell tr -> nth_error hlasy i = Some []).
Proof.
  assert (Sample.serve Sample.site_no_votes Sample.url_B tt
          = (Response 200 Sample.page_B_no_votes, tt)) as H by reflexivity.
  split; [exact H|]. split; [reflexivity|]. split; [reflexivity|].
  exact (parse_obec_data_vote_segment (Sample.serve Sample.site_no_votes) Sample.url_B
           (initial unit tt ∅) 200 Sample.page_B_no_votes tt H eq_refl eq_refl).
Defined.

Lemma party_names_and_votes_aligned_witness :
  shape Sample.page_B = shape Sample.page_A
  /\ length ([str "500062"; str "Beispiel"]
             ++ [str "2000"; str "1500"; str "1480"; str "700"; str "780"])
     = length (fixed_header ++ get_party_names Sample.page_A).
Proof.
  assert (shape Sample.page_B = shape Sample.page_A) as H by reflexivity.
  split; [exact H|].
  refine (proj2 (party_names_and_votes_aligned (Sample.serve Sample.site_ok))
            Sample.page_A Sample.page_B Sample.url_B (str "500062") (str "Beispiel")
            (initial unit tt ∅)
            (snd (parse_obec_data unit (Sample.serve Sample.site_ok) Sample.url_B
                    (initial unit tt ∅)))
            200%Z _ H eq_refl _).
  vm_compute. reflexivity.
Defined.




Lemma successful_run_table_witness :
  successful Sample.argv (Sample.run Sample.site_ok)
  /\ exists prog url output_file status page link code name infos status1 first_page net rows,
      Sample.argv = [prog; url; output_file]
      /\ get_obec_links Sample.resolve page url = (link, code, name) :: infos
      /\ st_net (snd (Sample.run Sample.site_ok))
         = (url, Response status page) :: (link, Response status1 first_page) :: net
      /\ rows_of ((link, code, name) :: infos) net rows
      /\ length rows = length (get_obec_links Sample.resolve page url)
      /\ csv_read <$> st_fs (snd (Sample.run Sample.site_ok)) !! output_file
         = Some ((map str ["code"; "location"; "registered"; "envelopes"; "valid"]
                  ++ get_party_names first_page) :: rows).
Proof.
  assert (successful Sample.argv (Sample.run Sample.site_ok)) as H
    by (split; vm_compute; reflexivity).
  split; [exact H|].
  exact (successful_run_table (Sample.serve Sample.site_ok) (fun _ => true)
           Sample.resolve Sample.argv tt ∅ H).
Defined.

Lemma failure_propagates_no_output_witness :
  (Exists (fun request => fetch_failed (snd request) = true)
          (st_net (snd (Sample.run Sample.site_no_envelopes)))
   \/ Exists (fun request => parse_fails (snd request) = true)
             (skipn 2 (st_net (snd (Sample.run Sample.site_no_envelopes)))))
  /\ (exists e url r,
        fst (Sample.run Sample.site_no_envelopes) = Raise e
        /\ last (st_net (snd (Sample.run Sample.site_no_envelopes))) = Some (url, r)
        /\ parse_result r = Raise e)
  /\ st_fs (snd (Sample.run Sample.site_no_envelopes)) = ∅.
Proof.
  assert (Exists (fun request => fetch_failed (snd request) = true)
                 (st_net (snd (Sample.run Sample.site_no_envelopes)))
          \/ Exists (fun request => parse_fails (snd request) = true)
                    (skipn 2 (st_net (snd (Sample.run Sample.site_no_envelopes))))) as H.
  { right. apply List.Exists_exists.
    exists (Sample.url_B, Response 200 Sample.page_B_no_envelopes).
    split; [vm_compute; right; left; reflexivity | reflexivity]. }
  split; [exact H|].
  exact (failure_propagates_no_output (Sample.serve Sample.site_no_envelopes)
           (fun _ => true) Sample.resolve Sample.argv tt ∅ H).
Defined.

(** A failed request: the page of the second municipality is unavailable. *)
Example unavailable_page_scenario :
  fst (Sample.run Sample.site_unavailable) = Raise (HTTPError 503)
  /\ st_fs (snd (Sample.run Sample.site_unavailable)) = ∅.
Proof. split; vm_compute; reflexivity. Qed.

Lemma no_municipalities_no_output_witness :
  valid_args Sample.argv
  /\ Sample.serve Sample.site_empty (nth 1 Sample.argv []) tt
     = (Response 200 Sample.empty_unit_page, tt)
  /\ is_error_status 200 = false
  /\ List.filter qualifies (find_all (str "tr") [] Sample.empty_unit_page) = []
  /\ Sample.run Sample.site_empty
     = (Ok tt, mkState unit tt [(nth 1 Sample.argv [], Response 200 Sample.empty_unit_page)]
                       [MsgLoadingMain; MsgNoObce] ∅)
  /\ is_diagnostic MsgNoObce = true.
Proof.
  assert (valid_args Sample.argv) as Hv by (apply valid_args_intro; reflexivity).
  assert (Sample.serve Sample.site_empty (nth 1 Sample.argv []) tt
          = (Response 200 Sample.empty_unit_page, tt)) as Hget by reflexivity.
  assert (List.filter qualifies (find_all (str "tr") [] Sample.empty_unit_page) = [])
    as Hnone by reflexivity.
  split; [exact Hv|]. split; [exact Hget|]. split; [reflexivity|]. split; [exact Hnone|].
  exact (no_municipalities_no_output (Sample.serve Sample.site_empty) (fun _ => true)
           Sample.resolve Sample.argv tt tt ∅ 200 Sample.empty_unit_page
           Hv Hget eq_refl Hnone).
Defined.

(** * Further properties of the code *)

(** ** Trimmed values *)

Lemma lstrip_starts_clean (s : text) : starts_clean (lstrip s) = true.
Proof.
  induction s as [|c s IH]; [reflexivity|].
  cbn [lstrip]. destruct (isspace c) eqn:E; [exact IH|].
  cbn. now rewrite E.
Qed.

Lemma lstrip_suffix (s : text) : exists p, s = p ++ lstrip s.
Proof.
  induction s as [|c s [p IH]]; [now exists []|].
  cbn [lstrip]. destruct (isspace c).
  - exists (c :: p). cbn. now rewrite <- IH.
  - now exists [].
Qed.

Lemma rstrip_prefix (s : text) : exists q, s = rstrip s ++ q.
Proof.
  unfold rstrip. destruct (lstrip_suffix (rev s)) as [p Hp].
  exists (rev p). rewrite <- rev_app_distr, <- Hp. now rewrite rev_involutive.
Qed.

Lemma starts_clean_prefix (a q : text) :
  starts_clean (a ++ q) = true -> starts_clean a = true.
Proof. now destruct a. Qed.

Lemma strip_trimmed (s : text) : trimmed (strip s) = true.
Proof.
  unfold trimmed, strip. apply andb_true_iff. split.
  - destruct (rstrip_prefix (lstrip s)) as [q Hq].
    apply (starts_clean_prefix _ q). rewrite <- Hq. apply lstrip_starts_clean.
  - unfold rstrip. rewrite rev_involutive. apply lstrip_starts_clean.
Qed.







Lemma combine_map_same {A B C} (f : A -> B) (g : A -> C) (l : list A) :
  combine (map f l) (map g l) = map (fun x => (f x, g x)) l.
Proof. induction l as [|x l IH]; cbn; [reflexivity | now rewrite IH]. Qed.

(** X1: the names of [get_party_names] and the codes and names of
    [get_obec_links] have no whitespace at either end. *)
Theorem extracted_names_trimmed :
  (forall soup : node, Forall (fun name => trimmed name = true) (get_party_names soup))
  /\ (forall (urljoin : text -> text -> text) (soup : node) (base_url : text),
        Forall (fun '(_, code, name) => trimmed code = true /\ trimmed name = true)
               (get_obec_links urljoin soup base_url)).
Proof.
  split.
  - intros soup. rewrite get_party_names_spec. apply List.Forall_forall.
    intros name Hin. apply in_map_iff in Hin as (tr & <- & _).
    unfold party_name. destruct (name_cell tr); [apply strip_trimmed | reflexivity].
  - intros urljoin soup base_url. rewrite get_obec_links_spec.
    apply List.Forall_forall. intros [[url code] name] Hin.
    apply in_map_iff in Hin as (row & [= _ <- <-] & _). split.
    + destruct (hyperlink row); [apply strip_trimmed | reflexivity].
    + unfold party_name. destruct (name_cell row); [apply strip_trimmed | reflexivity].
Qed.

(** X3: at every position the party name of [get_party_names] and the
    vote count of the party loop of [parse_obec_data] come from the same
    table row of the page. *)
Theorem names_and_votes_same_rows (soup : node) :
  combine (get_party_names soup) (hlasy_loop soup)
  = map (fun tr => (party_name tr, party_votes tr)) (party_rows soup).
Proof.
  rewrite get_party_names_spec, hlasy_loop_spec. apply combine_map_same.
Qed.

Section MoreExtractorProperties.

Context {World : Type}.
Variable requests_get : text -> World -> response * World.


(** X4: [get_soup] makes one request and nothing else: it prints
    nothing and touches no file.  It returns the page exactly when the
    request gave a response whose status is not in 400..599; a transport
    failure and an error status come out as the two exceptions. *)
Theorem get_soup_outcome (url : text) (s : state World) :
  st_net (snd (get_soup World requests_get url s))
  = st_net s ++ [(url, fst (requests_get url (st_world s)))]
  /\ st_world (snd (get_soup World requests_get url s))
     = snd (requests_get url (st_world s))
  /\ st_out (snd (get_soup World requests_get url s)) = st_out s
  /\ st_fs (snd (get_soup World requests_get url s)) = st_fs s
  /\ (forall page,
        fst (get_soup World requests_get url s) = Ok page
        <-> exists status,
              fst (requests_get url (st_world s)) = Response status page
              /\ (status < 400 \/ 600 <= status)%Z)
  /\ (fst (get_soup World requests_get url s) = Raise RequestException
      <-> fst (requests_get url (st_world s)) = TransportFailure)
  /\ (forall status,
        fst (get_soup World requests_get url s) = Raise (HTTPError status)
        <-> (400 <= status < 600)%Z
            /\ exists page, fst (requests_get url (st_world s)) = Response status page).
Proof.
  rewrite get_soup_eq. cbn [fst snd st_net st_world st_out st_fs].
  do 4 (split; [reflexivity|]).
  destruct (fst (requests_get url (st_world s))) as [|code body];
    cbn [soup_result]; unfold is_error_status.
  - split; [|split].
    + intros page. split; [discriminate | now intros (st & [=] & _)].
    + now split.
    + intros status. split; [discriminate | now intros (_ & p & [=])].
  - destruct (Z.leb_spec 400 code) as [Hlo | Hlo];
      destruct (Z.ltb_spec code 600) as [Hhi | Hhi]; cbn [andb].
    1: { split; [|split].
         - intros page. split; [discriminate | intros (st & [= <- <-] & Hst); lia].
         - split; discriminate.
         - intros status. split.
           + intros [= <-]. split; [lia | eauto].
           + now intros (_ & p & [= <- <-]). }
    all: split; [|split];
      [ intros page; split;
        [ intros [= <-]; exists code; split; [reflexivity | lia]
        | now intros (st & [= <- <-] & _) ]
      | split; discriminate
      | intros status; split; [discriminate | intros (Hst & p & [= <- <-]); lia] ].
Qed.

End MoreExtractorProperties.

(** ** Runs: what is requested, printed and written *)

Lemma rows_of_links infos net rows :
  rows_of infos net rows -> map fst net = map info_link infos.
Proof. induction 1; cbn; congruence. Qed.

Lemma progress_lines_length (n i : nat) (infos : list obec_info) :
  length (progress_lines n i infos) = length infos.
Proof.
  revert i. induction infos as [|[[link code] name] infos IH]; intros i; cbn;
    [reflexivity | now rewrite IH].
Qed.

Lemma progress_lines_nth (n i k : nat) (infos : list obec_info) (info : obec_info) :
  nth_error infos k = Some info ->
  nth_error (progress_lines n i infos) k = Some (MsgProgress (i + k) n (info_name info)).
Proof.
  revert i k. induction infos as [|[[link code] name] infos IH]; intros i k H.
  - now destruct k.
  - destruct k as [|k]; cbn in *.
    + injection H as <-. now rewrite Nat.add_0_r.
    + rewrite (IH (S i) k H). now rewrite Nat.add_succ_r.
Qed.

Lemma loop_fails_shape e infos net :
  loop_fails e infos net ->
  exists good link r,
    net = good ++ [(link, r)]
    /\ parse_result r = Raise e
    /\ Forall (fun request => parse_fails (snd request) = false) good
    /\ map fst net = firstn (length net) (map info_link infos)
    /\ length net <= length infos.
Proof.
  induction 1 as [link code name infos r Hr
                 | link code name infos status page net Hs Hp _
                     (good & l & r & -> & Hr & Hgood & Hpre & Hlen)].
  - exists [], link, r. cbn. repeat split; auto. lia.
  - exists ((link, Response status page) :: good), l, r.
    split; [reflexivity|]. split; [exact Hr|]. split.
    + constructor; [cbn; now rewrite Hs, Hp | exact Hgood].
    + cbn [length map firstn app fst info_link]. split; [|lia].
      cbn in Hpre. now rewrite Hpre.
Qed.

Section MoreRunProperties.

Context {World : Type}.
Variable requests_get : text -> World -> response * World.
Variable writable : text -> bool.
Variable urljoin : text -> text -> text.

Local Abbreviation run argv w fs :=
  (main World requests_get writable urljoin argv (initial World w fs)).

(** X5: the validator reports the first check that fails: the number of
    arguments, then the URL, then the file name; it makes no request and
    touches no file. *)
Theorem validate_arguments_diagnostic (args : list text) (s : state World) :
  st_world (snd (validate_arguments World args s)) = st_world s
  /\ st_net (snd (validate_arguments World args s)) = st_net s
  /\ st_fs (snd (validate_arguments World args s)) = st_fs s
  /\ (length args <> 3 ->
      st_out (snd (validate_arguments World args s)) = st_out s ++ [MsgArgCount])
  /\ (forall prog url f,
        args = [prog; url; f] ->
        (forall rest, url <> url_prefix ++ rest) ->
        st_out (snd (validate_arguments World args s)) = st_out s ++ [MsgBadUrl])
  /\ (forall prog url f rest,
        args = [prog; url; f] ->
        url = url_prefix ++ rest ->
        (forall stem, f <> stem ++ str ".csv") ->
        st_out (snd (validate_arguments World args s)) = st_out s ++ [MsgBadFile]).
Proof.
  assert (forall url, (forall rest, url <> url_prefix ++ rest) ->
                      startswith url url_prefix = false) as Hno_prefix.
  { intros url H. destruct (startswith url url_prefix) eqn:E; [|reflexivity].
    apply startswith_spec in E as [rest ->]. now destruct (H rest). }
  assert (forall f, (forall stem, f <> stem ++ str ".csv") ->
                    endswith f (str ".csv") = false) as Hno_suffix.
  { intros f H. destruct (endswith f (str ".csv")) eqn:E; [|reflexivity].
    apply endswith_spec in E as [stem ->]. now destruct (H stem). }
  split; [|split; [|split]].
  1-3: destruct (validate_arguments_spec args s)
         as [[_ ->] | [_ (m & _ & _ & ->)]]; reflexivity.
  unfold validate_arguments. fold url_prefix. split; [|split].
  - intros Hlen. apply Nat.eqb_neq in Hlen. now rewrite Hlen.
  - intros prog url f -> Hurl. cbn [length Nat.eqb negb nth].
    now rewrite (Hno_prefix url Hurl).
  - intros prog url f rest -> -> Hf. cbn [length Nat.eqb negb nth].
    assert (startswith (url_prefix ++ rest) url_prefix = true) as ->
      by (apply startswith_spec; eauto).
    cbn [negb]. now rewrite (Hno_suffix f Hf).
Qed.

(** X6: with arguments the validator rejects, [main] returns at once:
    one diagnostic is printed, no request is made, no file is written. *)
Theorem rejected_arguments_nothing_done (argv : list text) (w : World)
    (fs : gmap text text) :
  ~ valid_args argv ->
  exists m, is_diagnostic m = true
    /\ run argv w fs = (Ok tt, mkState World w [] [m] fs).
Proof.
  intros Hnv. unfold main. unfold mbind at 1, M_bind at 1.
  destruct (validate_arguments_spec argv (initial World w fs))
    as [[Hv _] | [_ (m & Hd & _ & ->)]]; [contradiction|].
  exists m. split; [exact Hd | reflexivity].
Qed.

(** A run that ends well, in full. *)
Lemma successful_run_full (argv : list text) (w : World) (fs : gmap text text) :
  successful argv (run argv w fs) ->
  exists prog url output_file status page link code name infos status1 first_page net rows,
    argv = [prog; url; output_file]
    /\ get_obec_links urljoin page url = (link, code, name) :: infos
    /\ st_net (snd (run argv w fs))
       = (url, Response status page) :: (link, Response status1 first_page) :: net
    /\ rows_of ((link, code, name) :: infos) net rows
    /\ st_out (snd (run argv w fs))
       = [MsgLoadingMain; MsgLoadingParties]
         ++ progress_lines (S (length infos)) 1 ((link, code, name) :: infos)
         ++ [MsgDone output_file].
Proof.
  destruct (run argv w fs) as [r s'] eqn:Hrun. intros [Hok Hlast]. cbn [fst snd] in *.
  apply main_spec in Hrun.
  destruct Hrun as [m _ Hd _ | | prog url f status page -> | | | |
                    prog url f status page link code name infos status1 first_page
                      net rows -> Hs Hl Hs1 Hrows]; try discriminate.
  - injection Hlast as ->. discriminate.
  - exists prog, url, f, status, page, link, code, name, infos, status1, first_page, net, rows.
    auto 7.
Qed.

(** X7: a successful run over n municipalities makes n + 2 requests, in
    this order: the territorial-unit page, the page of the first
    municipality (for the header), then the page of every municipality,
    the first one again included. *)
Theorem successful_run_requests (argv : list text) (w : World) (fs : gmap text text) :
  successful argv (run argv w fs) ->
  exists status page first_link links,
    head (st_net (snd (run argv w fs))) = Some (nth 1 argv [], Response status page)
    /\ map info_link (get_obec_links urljoin page (nth 1 argv [])) = first_link :: links
    /\ map fst (st_net (snd (run argv w fs)))
       = nth 1 argv [] :: first_link :: first_link :: links
    /\ length (st_net (snd (run argv w fs)))
       = length (get_obec_links urljoin page (nth 1 argv [])) + 2.
Proof.
  intros Hrun.
  destruct (successful_run_full argv w fs Hrun)
    as (prog & url & f & status & page & link & code & name & infos & status1
        & first_page & net & rows & -> & Hl & Hnet & Hrows & _).
  exists status, page, link, (map info_link infos).
  cbn [nth]. rewrite Hnet, Hl. cbn [head map fst info_link length].
  apply rows_of_links in Hrows as Hlinks. cbn [map info_link fst] in Hlinks.
  repeat split.
  - now rewrite Hlinks.
  - rewrite <- (length_map fst net), Hlinks. cbn [length]. rewrite length_map. lia.
Qed.

(** X8: a successful run prints the two loading lines, then one progress
    line per municipality in order, numbered from 1 and showing the
    number of municipalities and the name, then the closing line that
    names the file. *)
Theorem successful_run_output_lines (argv : list text) (w : World)
    (fs : gmap text text) :
  successful argv (run argv w fs) ->
  exists status page lines,
    head (st_net (snd (run argv w fs))) = Some (nth 1 argv [], Response status page)
    /\ st_out (snd (run argv w fs))
       = [MsgLoadingMain; MsgLoadingParties] ++ lines ++ [MsgDone (nth 2 argv [])]
    /\ length lines = length (get_obec_links urljoin page (nth 1 argv []))
    /\ forall k info,
         nth_error (get_obec_links urljoin page (nth 1 argv [])) k = Some info ->
         nth_error lines k
         = Some (MsgProgress (S k) (length (get_obec_links urljoin page (nth 1 argv [])))
                             (info_name info)).
Proof.
  intros Hrun.
  destruct (successful_run_full argv w fs Hrun)
    as (prog & url & f & status & page & link & code & name & infos & status1
        & first_page & net & rows & -> & Hl & Hnet & _ & Hout).
  exists status, page,
    (progress_lines (S (length infos)) 1 ((link, code, name) :: infos)).
  cbn [nth]. rewrite Hnet, Hout, Hl. cbn [head].
  split; [reflexivity|]. split; [reflexivity|].
  split; [apply progress_lines_length|].
  intros k info Hk. now rewrite (progress_lines_nth _ 1 k _ info Hk).
Qed.


End MoreRunProperties.

(** ** The municipality loop, the writer, pages without names *)

Section LoopAndWriter.

Context {World : Type}.
Variable requests_get : text -> World -> response * World.
Variable writable : text -> bool.
Variable urljoin : text -> text -> text.

Local Abbreviation run argv w fs :=
  (main World requests_get writable urljoin argv (initial World w fs)).

(** X10: when the loop of [main] ends with an exception, it stopped at
    the first municipality whose request failed: the pages before it were
    fetched and parsed, that one was requested last, no later one was
    requested; a progress line was printed for each of these and no file
    was touched. *)
Theorem main_loop_stops_at_first_failure (infos : list obec_info) (n i : nat)
    (data : list (list text)) (s s' : state World) (e : exn) :
  main_loop World requests_get n i infos data s = (Raise e, s') ->
  exists good link r,
    st_net s' = st_net s ++ good ++ [(link, r)]
    /\ parse_result r = Raise e
    /\ Forall (fun request => parse_fails (snd request) = false) good
    /\ map fst (good ++ [(link, r)]) = firstn (S (length good)) (map info_link infos)
    /\ length good < length infos
    /\ st_out s' = st_out s ++ firstn (S (length good)) (progress_lines n i infos)
    /\ st_fs s' = st_fs s.
Proof.
  revert i data s. induction infos as [|[[link code] name] infos IH]; intros i data s H.
  - discriminate.
  - cbn [main_loop] in H. unfold mbind, M_bind, print in H.
    rewrite parse_obec_data_eq in H. cbn [st_world st_net st_out st_fs] in H.
    destruct (requests_get link (st_world s)) as [resp w]. cbn [fst snd] in H.
    destruct (parse_result resp) as [vals|e0] eqn:Hr.
    + apply parse_result_ok in Hr as (status & page & -> & Hs & Hp & ->).
      apply IH in H as (good & l & r & Hnet & Hr & Hgood & Hpre & Hlen & Hout & Hfs).
      cbn [st_net st_out st_fs] in *.
      exists ((link, Response status page) :: good), l, r.
      split; [rewrite Hnet, <- !app_assoc; reflexivity|].
      split; [exact Hr|].
      split; [constructor; [cbn; now rewrite Hs, Hp | exact Hgood]|].
      split; [cbn [app map fst length firstn info_link]; now rewrite <- Hpre|].
      split; [cbn [length]; lia|].
      split; [rewrite Hout, <- !app_assoc; reflexivity | exact Hfs].
    + injection H as -> <-. cbn [st_net st_out st_fs].
      exists [], link, resp. cbn [app length map firstn fst info_link progress_lines].
      repeat split; auto. lia.
Qed.



(** A run reports success only if the output file could be opened. *)
Lemma successful_run_writable (argv : list text) (w : World) (fs : gmap text text) :
  successful argv (run argv w fs) -> writable (nth 2 argv []) = true.
Proof.
  destruct (writable (nth 2 argv [])) eqn:Hw; [reflexivity|]. intros [Hok Hlast]. exfalso.
  unfold main in Hok, Hlast. unfold mbind at 1, M_bind at 1 in Hok.
  unfold mbind at 1, M_bind at 1 in Hlast.
  destruct (validate_arguments_spec argv (initial World w fs))
    as [[Hv Heq] | [_ (m & Hd & _ & Heq)]]; rewrite Heq in Hok, Hlast;
    cbn [negb] in Hok, Hlast.
  2:{ cbn in Hlast. injection Hlast as ->. discriminate. }
  destruct Hv as (prog & url & f & rest & stem & -> & _ & _). cbn [nth] in *.
  unfold mbind, M_bind, print in Hok, Hlast. rewrite get_soup_eq in Hok, Hlast.
  cbn [initial st_world st_net st_out st_fs app] in Hok, Hlast.
  destruct (requests_get url w) as [resp w1]. cbn [fst snd] in Hok, Hlast.
  destruct (soup_result resp) as [page|e]; [|discriminate].
  destruct (get_obec_links urljoin page url) as [|[[link code] name] infos];
    [discriminate|].
  rewrite get_soup_eq in Hok, Hlast. cbn [st_world st_net st_out st_fs app] in Hok, Hlast.
  destruct (requests_get link w1) as [resp1 w2]. cbn [fst snd] in Hok, Hlast.
  destruct (soup_result resp1) as [first_page|e]; [|discriminate].
  match type of Hok with context [main_loop ?a ?b ?c ?d ?x ?g ?h] =>
    destruct (main_loop a b c d x g h) as [[rows|e] s2] end; [|discriminate].
  unfold save_to_csv, write_file in Hok. rewrite Hw in Hok. discriminate.
Qed.

(** X13: the validator does not look at the file system: when the output
    file cannot be opened the run never reports success, and it leaves
    the files as they were. *)
Theorem unwritable_output_no_success (argv : list text) (w : World)
    (fs : gmap text text) :
  writable (nth 2 argv []) = false ->
  ~ successful argv (run argv w fs)
  /\ st_fs (snd (run argv w fs)) = fs.
Proof.
  intros Hw.
  assert (~ successful argv (run argv w fs)) as Hns.
  { intros H%successful_run_writable. congruence. }
  split; [exact Hns|].
  destruct (run argv w fs) as [r s'] eqn:Hrun. cbn [snd].
  apply main_spec in Hrun. unfold successful in Hns. cbn [fst snd] in Hns. revert Hns.
  destruct Hrun as [ | | | | | |
                    prog url out status page link code name infos status1 first_page
                      net rows -> Hs Hl Hs1 Hrows]; try reflexivity.
  intros Hns. exfalso. apply Hns. split; [reflexivity|]. cbn [nth].
  rewrite !app_assoc. apply last_snoc.
Qed.

End LoopAndWriter.

(** An element below an element below [n] is below [n]. *)
Lemma descendants_trans (n c d : node) :
  In c (descendants n) -> In d (descendants c) -> In d (descendants n).
Proof.
  revert c d. induction n as [s | name attrs cs IH] using node_tree_ind;
    intros c d Hc Hd; [destruct Hc|].
  cbn [descendants] in *. apply in_flat_map in Hc as (c0 & Hc0 & Hc).
  apply in_flat_map. exists c0. split; [exact Hc0|]. right.
  destruct Hc as [<- | Hc]; [exact Hd|].
  rewrite List.Forall_forall in IH. exact (IH c0 Hc0 c d Hc Hd).
Qed.

Lemma find_all_below name kw (n c : node) :
  In c (find_all name kw n) -> In c (descendants n).
Proof. unfold find_all. intros H. apply List.filter_In in H. tauto. Qed.

Lemma no_name_cell_no_party_row (n : node) :
  (forall c, In c (descendants n) -> is_name_cell c = false) ->
  is_party_row n = false.
Proof.
  intros H. unfold is_party_row, name_cell.
  destruct (find _ _ n) as [c|] eqn:E; [|reflexivity].
  apply find_matches in E as [Hm Hin]. apply H in Hin.
  unfold is_name_cell in Hin. congruence.
Qed.

Lemma filter_none {A} (p : A -> bool) (l : list A) :
  (forall x, In x l -> p x = false) -> List.filter p l = [].
Proof.
  induction l as [|x l IH]; intros H; [reflexivity|].
  cbn. rewrite (H x) by now left. apply IH. intros y Hy. apply H. now right.
Qed.

Lemma flat_map_all_nil {A B} (f : A -> list B) (l : list A) :
  (forall x, In x l -> f x = []) -> flat_map f l = [].
Proof.
  induction l as [|x l IH]; intros H; [reflexivity|].
  cbn. rewrite (H x) by now left. apply IH. intros y Hy. apply H. now right.
Qed.

(** X14: a page without any overflow-name cell gives no party name, no
    vote count and no municipality link. *)
Theorem no_name_cells_nothing_extracted (soup : node) :
  (forall c, In c (descendants soup) -> is_name_cell c = false) ->
  get_party_names soup = []
  /\ hlasy_loop soup = []
  /\ forall (urljoin : text -> text -> text) (base_url : text),
       get_obec_links urljoin soup base_url = [].
Proof.
  intros H.
  assert (forall row, In row (descendants soup) -> is_party_row row = false) as Hrow.
  { intros row Hin. apply no_name_cell_no_party_row. intros c Hc.
    apply H. now apply (descendants_trans soup row c). }
  assert (party_rows soup = []) as Hrows.
  { unfold party_rows. apply flat_map_all_nil. intros table Ht.
    apply filter_none. intros tr Htr. apply Hrow.
    apply (descendants_trans soup table tr); now apply find_all_below in Ht, Htr. }
  rewrite get_party_names_spec, hlasy_loop_spec, Hrows.
  split; [reflexivity|]. split; [reflexivity|].
  intros urljoin base_url. rewrite get_obec_links_spec.
  rewrite filter_none; [reflexivity|].
  intros row Hin. apply find_all_below in Hin. unfold qualifies.
  change (is_some (name_cell row)) with (is_party_row row).
  rewrite (Hrow row Hin). now rewrite andb_false_r.
Qed.

Section ParseOutcome.

Context {World : Type}.
Variable requests_get : text -> World -> response * World.

(** X15: [parse_obec_data] makes one request, prints nothing and touches
    no file, whether it returns or raises.  It raises [AttributeError]
    exactly when the page came with a good status but lacks one of the
    cells [sa2], [sa3], [sa6]; what it returns has three counters and one
    entry per party row of the page. *)
Theorem parse_obec_data_outcome (url : text) (s : state World) :
  st_net (snd (parse_obec_data World requests_get url s))
  = st_net s ++ [(url, fst (requests_get url (st_world s)))]
  /\ st_out (snd (parse_obec_data World requests_get url s)) = st_out s
  /\ st_fs (snd (parse_obec_data World requests_get url s)) = st_fs s
  /\ (fst (parse_obec_data World requests_get url s) = Raise AttributeError
      <-> exists status page,
            fst (requests_get url (st_world s)) = Response status page
            /\ is_error_status status = false
            /\ has_scalars page = false)
  /\ (forall vals,
        fst (parse_obec_data World requests_get url s) = Ok vals ->
        exists status page,
          fst (requests_get url (st_world s)) = Response status page
          /\ length vals = 3 + length (party_rows page)).
Proof.
  rewrite parse_obec_data_eq. cbn [fst snd st_net st_out st_fs].
  do 3 (split; [reflexivity|]). split.
  - destruct (fst (requests_get url (st_world s))) as [|status page]; cbn [parse_result].
    + split; [discriminate | now intros (st & pg & [=] & _)].
    + destruct (is_error_status status) eqn:Hs.
      * split; [discriminate | intros (st & pg & [= <- <-] & Hst & _); congruence].
      * destruct (has_scalars page) eqn:Hp.
        -- split; [discriminate | intros (st & pg & [= <- <-] & _ & Hpg); congruence].
        -- split; [eauto | reflexivity].
  - intros vals H. apply parse_result_ok in H as (status & page & -> & _ & _ & ->).
    exists status, page. split; [reflexivity|].
    unfold page_values. cbn [length app]. now rewrite length_map.
Qed.

End ParseOutcome.

(** ** These properties on the sample pages *)


Lemma rejected_arguments_nothing_done_witness :
  ~ valid_args [str "main.py"; Sample.unit_url]
  /\ exists m, is_diagnostic m = true
       /\ main unit (Sample.serve Sample.site_ok) (fun _ => true) Sample.resolve
            [str "main.py"; Sample.unit_url] (initial unit tt ∅)
          = (Ok tt, mkState unit tt [] [m] ∅).
Proof.
  assert (~ valid_args [str "main.py"; Sample.unit_url]) as H
    by (intros H0; apply valid_args_length in H0; discriminate).
  split; [exact H|].
  exact (rejected_arguments_nothing_done (Sample.serve Sample.site_ok) (fun _ => true)
           Sample.resolve [str "main.py"; Sample.unit_url] tt ∅ H).
Defined.

Lemma sample_run_successful : successful Sample.argv (Sample.run Sample.site_ok).
Proof. split; vm_compute; reflexivity. Defined.

Lemma successful_run_requests_witness :
  successful Sample.argv (Sample.run Sample.site_ok)
  /\ exists status page first_link links,
      head (st_net (snd (Sample.run Sample.site_ok)))
      = Some (nth 1 Sample.argv [], Response status page)
      /\ map info_link (get_obec_links Sample.resolve page (nth 1 Sample.argv []))
         = first_link :: links
      /\ map fst (st_net (snd (Sample.run Sample.site_ok)))
         = nth 1 Sample.argv [] :: first_link :: first_link :: links
      /\ length (st_net (snd (Sample.run Sample.site_ok)))
         = length (get_obec_links Sample.resolve page (nth 1 Sample.argv [])) + 2.
Proof.
  split; [exact sample_run_successful|].
  exact (successful_run_requests (Sample.serve Sample.site_ok) (fun _ => true)
           Sample.resolve Sample.argv tt ∅ sample_run_successful).
Defined.

Lemma successful_run_output_lines_witness :
  successful Sample.argv (Sample.run Sample.site_ok)
  /\ exists status page lines,
      head (st_net (snd (Sample.run Sample.site_ok)))
      = Some (nth 1 Sample.argv [], Response status page)
      /\ st_out (snd (Sample.run Sample.site_ok))
         = [MsgLoadingMain; MsgLoadingParties] ++ lines
           ++ [MsgDone (nth 2 Sample.argv [])]
      /\ length lines
         = length (get_obec_links Sample.resolve page (nth 1 Sample.argv []))
      /\ forall k info,
           nth_error (get_obec_links Sample.resolve page (nth 1 Sample.argv [])) k
           = Some info ->
           nth_error lines k
           = Some (MsgProgress (S k)
                     (length (get_obec_links Sample.resolve page (nth 1 Sample.argv [])))
                     (info_name info)).
Proof.
  split; [exact sample_run_successful|].
  exact (successful_run_output_lines (Sample.serve Sample.site_ok) (fun _ => true)
           Sample.resolve Sample.argv tt ∅ sample_run_successful).
Defined.


Lemma main_loop_stops_at_first_failure_witness :
  main_loop unit (Sample.serve Sample.site_no_envelopes) 2 1
    (get_obec_links Sample.resolve Sample.unit_page Sample.unit_url) []
    (initial unit tt ∅)
  = (Raise AttributeError,
     snd (main_loop unit (Sample.serve Sample.site_no_envelopes) 2 1
            (get_obec_links Sample.resolve Sample.unit_page Sample.unit_url) []
            (initial unit tt ∅)))
  /\ exists good link r,
      st_net (snd (main_loop unit (Sample.serve Sample.site_no_envelopes) 2 1
                     (get_obec_links Sample.resolve Sample.unit_page Sample.unit_url) []
                     (initial unit tt ∅)))
      = st_net (initial unit tt ∅) ++ good ++ [(link, r)]
      /\ parse_result r = Raise AttributeError
      /\ Forall (fun request => parse_fails (snd request) = false) good
      /\ map fst (good ++ [(link, r)])
         = firstn (S (length good))
             (map info_link (get_obec_links Sample.resolve Sample.unit_page Sample.unit_url))
      /\ length good
         < length (get_obec_links Sample.resolve Sample.unit_page Sample.unit_url)
      /\ st_out (snd (main_loop unit (Sample.serve Sample.site_no_envelopes) 2 1
                        (get_obec_links Sample.resolve Sample.unit_page Sample.unit_url) []
                        (initial unit tt ∅)))
         = st_out (initial unit tt ∅)
           ++ firstn (S (length good))
                (progress_lines 2 1
                   (get_obec_links Sample.resolve Sample.unit_page Sample.unit_url))
      /\ st_fs (snd (main_loop unit (Sample.serve Sample.site_no_envelopes) 2 1
                       (get_obec_links Sample.resolve Sample.unit_page Sample.unit_url) []
                       (initial unit tt ∅)))
         = st_fs (initial unit tt ∅).
Proof.
  assert (main_loop unit (Sample.serve Sample.site_no_envelopes) 2 1
            (get_obec_links Sample.resolve Sample.unit_page Sample.unit_url) []
            (initial unit tt ∅)
          = (Raise AttributeError,
             snd (main_loop unit (Sample.serve Sample.site_no_envelopes) 2 1
                    (get_obec_links Sample.resolve Sample.unit_page Sample.unit_url) []
                    (initial unit tt ∅)))) as H by (vm_compute; reflexivity).
  split; [exact H|].
  exact (main_loop_stops_at_first_failure (Sample.serve Sample.site_no_envelopes)
           _ 2 1 [] _ _ _ H).
Defined.



Lemma unwritable_output_no_success_witness :
  (fun _ : text => false) (nth 2 Sample.argv []) = false
  /\ ~ successful Sample.argv
         (main unit (Sample.serve Sample.site_ok) (fun _ => false) Sample.resolve
            Sample.argv (initial unit tt ∅))
  /\ st_fs (snd (main unit (Sample.serve Sample.site_ok) (fun _ => false) Sample.resolve
                   Sample.argv (initial unit tt ∅))) = ∅.
Proof.
  split; [reflexivity|].
  exact (unwritable_output_no_success (Sample.serve Sample.site_ok) (fun _ => false)
           Sample.resolve Sample.argv tt ∅ eq_refl).
Defined.

Lemma no_name_cells_nothing_extracted_witness :
  (forall c, In c (descendants Sample.empty_unit_page) -> is_name_cell c = false)
  /\ get_party_names Sample.empty_unit_page = []
  /\ hlasy_loop Sample.empty_unit_page = []
  /\ forall (urljoin : text -> text -> text) (base_url : text),
       get_obec_links urljoin Sample.empty_unit_page base_url = [].
Proof.
  assert (forall c, In c (descendants Sample.empty_unit_page) -> is_name_cell c = false)
    as H.
  { assert (forallb (fun c => negb (is_name_cell c))
              (descendants Sample.empty_unit_page) = true) as Hall
      by (vm_compute; reflexivity).
    intros c Hc. apply negb_true_iff.
    exact (proj1 (forallb_forall _ _) Hall c Hc). }
  split; [exact H|].
  exact (no_name_cells_nothing_extracted Sample.empty_unit_page H).
Defined.
